(** * Permit status bot: a model of [bot.py] and its properties

    The development embeds the decision logic of [bot.py]: the code
    normaliser ([normalize_permit_code], [is_permit_code]), the classifier
    ([check_permit_status]), the formatter ([build_result_message]) and the
    free-text handler ([handle_message]).

    Python strings are sequences of Unicode code points, so a string is a
    list of code points ([N]).  Dictionaries are finite maps.  Effects (the
    HTTP request, the logger, the chat) are threaded through a [World]. *)

From Stdlib Require Import NArith Lia Ascii.
From stdpp Require Import base option list strings gmap.

Local Open Scope N_scope.

(** ** Strings *)

Abbreviation str := (list N).

(** An ASCII literal of the source, as code points. *)
Fixpoint lit (s : string) : str :=
  match s with
  | EmptyString => []
  | String a s' => N_of_ascii a :: lit s'
  end.

Global Arguments lit : simpl never.

(** ["\n"], and the double quote inside the header literals. *)
Definition nl : str := [10].
Definition dq : str := [34].

(** [sub in s] on strings: [sub] occurs in [s] at some offset. *)
Fixpoint starts_with (sub s : str) : bool :=
  match sub, s with
  | [], _ => true
  | a :: sub', b :: s' => (a =? b) && starts_with sub' s'
  | _ :: _, [] => false
  end.

Fixpoint contains (sub s : str) : bool :=
  starts_with sub s ||
  match s with
  | [] => false
  | _ :: s' => contains sub s'
  end.

(** The mathematical reading of [in]: [sub] is a contiguous part of [s]. *)
Definition Substr (sub s : str) : Prop := ∃ pre post, s = pre ++ sub ++ post.

(** ** The Unicode database of the interpreter

    [str.upper], [str.lower] and the regex class [\d] consult the Unicode
    tables of the running interpreter.  Their ASCII part is fixed and is
    written out below; the rest is kept as an interface. *)
Class UnicodeData := {
  (** full upper-case mapping of a code point >= 128 *)
  toupper_full : N → str;
  (** decimal-digit property of a code point >= 128 *)
  isdecimal_db : N → bool;
  (** [str.lower] (it is context sensitive, so it acts on whole strings) *)
  str_lower : str → str;
}.

(** [str.isspace] on one code point: the characters [str.strip] removes. *)
Definition isspace (c : N) : bool :=
  (9 <=? c) && (c <=? 13) || (28 <=? c) && (c <=? 32)
  || (c =? 0x85) || (c =? 0xa0) || (c =? 0x1680)
  || (0x2000 <=? c) && (c <=? 0x200a)
  || (c =? 0x2028) || (c =? 0x2029) || (c =? 0x202f) || (c =? 0x205f)
  || (c =? 0x3000).

Fixpoint lstrip (s : str) : str :=
  match s with
  | c :: s' => if isspace c then lstrip s' else s
  | [] => []
  end.

Definition rstrip (s : str) : str := rev (lstrip (rev s)).

(** [s.strip()] *)
Definition strip (s : str) : str := rstrip (lstrip s).

Definition is_ascii_lower (c : N) : bool := (97 <=? c) && (c <=? 122).
Definition is_ascii_upper (c : N) : bool := (65 <=? c) && (c <=? 90).
Definition is_ascii_digit (c : N) : bool := (48 <=? c) && (c <=? 57).

Definition ascii_toupper (c : N) : N := if is_ascii_lower c then c - 32 else c.
Definition ascii_tolower (c : N) : N := if is_ascii_upper c then c + 32 else c.

Section Unicode.
Context `{UnicodeData}.

Definition upper_char (c : N) : str :=
  if c <? 128 then [ascii_toupper c] else toupper_full c.

(** [s.upper()]: the upper-case mapping of each code point, concatenated. *)
Definition upper (s : str) : str := flat_map upper_char s.

(** [\d] in a [str] pattern: any Unicode decimal digit. *)
Definition is_decimal (c : N) : bool :=
  if c <? 128 then is_ascii_digit c else isdecimal_db c.
End Unicode.

(** [[A-Za-z0-9]] *)
Definition is_alnum (c : N) : bool :=
  is_ascii_upper c || is_ascii_lower c || is_ascii_digit c.

(** ** The two regular expressions

    Both patterns have the shape [^C{lo,hi}$] and are used with [re.match].
    Without [re.MULTILINE], [$] holds at the end of the string and also just
    before a newline that ends the string. *)
Definition at_dollar (rest : str) : bool :=
  match rest with
  | [] => true
  | [c] => c =? 10
  | _ => false
  end.

(** Greedy repetition with backtracking: take a character of the class while
    allowed, and fall back to stopping here. *)
Fixpoint re_match_rep (cls : N → bool) (lo hi : nat) (s : str) : bool :=
  match hi, s with
  | S hi', c :: s' =>
      if cls c
      then re_match_rep cls (pred lo) hi' s' || Nat.eqb lo 0 && at_dollar s
      else Nat.eqb lo 0 && at_dollar s
  | _, _ => Nat.eqb lo 0 && at_dollar s
  end.

(** ** Decimal rendering of the year *)

Fixpoint digits (d : Decimal.uint) : str :=
  match d with
  | Decimal.Nil => []
  | Decimal.D0 d => 48 :: digits d
  | Decimal.D1 d => 49 :: digits d
  | Decimal.D2 d => 50 :: digits d
  | Decimal.D3 d => 51 :: digits d
  | Decimal.D4 d => 52 :: digits d
  | Decimal.D5 d => 53 :: digits d
  | Decimal.D6 d => 54 :: digits d
  | Decimal.D7 d => 55 :: digits d
  | Decimal.D8 d => 56 :: digits d
  | Decimal.D9 d => 57 :: digits d
  end.

(** [str(n)] for a natural number. *)
Definition str_of_N (n : N) : str := digits (N.to_uint n).

(** [s.zfill(width)]: zeros go after a leading sign. *)
Definition zfill (width : nat) (s : str) : str :=
  if decide (width ≤ length s)%nat then s
  else
    let fill := replicate (width - length s) 48 in
    match s with
    | c :: rest => if (c =? 43) || (c =? 45) then c :: fill ++ rest else fill ++ s
    | [] => fill
    end.

(** [str(datetime.now().year % 100).zfill(2)] *)
Definition year_prefix (year : N) : str := zfill 2 (str_of_N (year mod 100)).

(** ** CodeNormalizer *)

Section Normalizer.
Context `{UnicodeData}.

(** [re.match(r"^\d{6}$", code)] *)
Definition re_six_digits (code : str) : bool := re_match_rep is_decimal 6 6 code.

(** [normalize_permit_code]; [year] is what [datetime.now().year] reads. *)
Definition normalize_permit_code (year : N) (raw : str) : str :=
  let code := upper (strip raw) in
  if re_six_digits code then year_prefix year ++ code else code.
End Normalizer.

(** [re.match(r"^[A-Za-z0-9]{6,20}$", s)] *)
Definition re_alnum_6_20 (s : str) : bool := re_match_rep is_alnum 6 20 s.

Definition is_permit_code (text : str) : bool := re_alnum_6_20 (strip text).

(** ** Dictionaries and verdicts *)

Abbreviation dict := (gmap (list N) (list N)).

(** [s * n] *)
Definition str_mul (s : str) (n : nat) : str := concat (replicate n s).

(** The four dictionaries [check_permit_status] returns. *)
Definition ERROR_RESULT : dict :=
  {[ lit "status" := lit "error";
     lit "title" := lit "Connection Error";
     lit "description" :=
       lit "Could not reach the Polizia di Stato server." ++ nl
       ++ lit "Please try again in a few minutes.";
     lit "emoji" := [0x26a0; 0xfe0f] ]}.

Definition READY_RESULT : dict :=
  {[ lit "status" := lit "ready";
     lit "title" := lit "Ready for Pickup!";
     lit "description" :=
       lit "Your permit is <b>ready</b>!" ++ nl
       ++ lit "You can now book an appointment to pick it up" ++ nl
       ++ lit "at your local Questura office.";
     lit "emoji" := [0x2705] ]}.

Definition PROCESSING_RESULT : dict :=
  {[ lit "status" := lit "processing";
     lit "title" := lit "Being Processed";
     lit "description" :=
       lit "Your application is currently <b>being processed</b>." ++ nl
       ++ lit "The Questura has started working on your permit." ++ nl
       ++ lit "Please check back later for updates.";
     lit "emoji" := [0x23f3] ]}.

Definition UNKNOWN_RESULT : dict :=
  {[ lit "status" := lit "unknown";
     lit "title" := lit "Not Yet Started";
     lit "description" :=
       lit "No information is available for this permit code." ++ nl
       ++ lit "Processing has <b>not started yet</b>, or the code" ++ nl
       ++ lit "may be incorrect. Double-check and try again.";
     lit "emoji" := [0x274c] ]}.

(** ** ResponseFormatter *)

Definition GREEN : str := [0x1f7e2].
Definition YELLOW : str := [0x1f7e1].
Definition RED : str := [0x1f534].
Definition WARNING : str := [0x26a0; 0xfe0f].
Definition QUESTION : str := [0x2753].

Definition STATUS_COLORS : dict :=
  {[ lit "ready" := GREEN;
     lit "processing" := YELLOW;
     lit "unknown" := RED;
     lit "error" := WARNING ]}.

(** [build_result_message]; [d[k]] on a missing key raises [KeyError], which
    is [None] here.  The look-ups happen in the order of the source. *)
Definition build_result_message (permit_code : str) (result : dict) : option str :=
  status ← result !! lit "status";
  let dot := default QUESTION (STATUS_COLORS !! status) in
  emoji ← result !! lit "emoji";
  title ← result !! lit "title";
  title' ← result !! lit "title";
  description ← result !! lit "description";
  Some (str_mul (lit "=") 28 ++ nl
        ++ emoji ++ lit "  <b>" ++ title ++ lit "</b>" ++ nl
        ++ str_mul (lit "=") 28 ++ nl ++ nl
        ++ [0x1f4c4] ++ lit "  <b>Permit Code:</b>  <code>" ++ permit_code
        ++ lit "</code>" ++ nl
        ++ dot ++ lit "  <b>Status:</b>  " ++ title' ++ nl ++ nl
        ++ description ++ nl ++ nl
        ++ str_mul [0x2500] 28).

(** ** The world: HTTP, logger, chat *)

Record Request := {
  url : str;
  params : dict;
  headers : dict;
  cookies : dict;
  verify : bool;
  timeout : N;
}.

Record Response := {
  status_code : N;
  reason : str;
  resp_url : str;
  text : str;
}.

(** The subclasses of [requests.RequestException], with their message. *)
Inductive RequestException :=
  | ConnectionError (msg : str)
  | Timeout (msg : str)
  | TooManyRedirects (msg : str)
  | HTTPError (msg : str).

(** [str(exc)] *)
Definition exc_str (exc : RequestException) : str :=
  match exc with
  | ConnectionError m | Timeout m | TooManyRedirects m | HTTPError m => m
  end.

(** What [requests.get] does: it returns the final response (redirects
    followed) or raises a [RequestException]. *)
Inductive Outcome :=
  | Returned (resp : Response)
  | Raised (exc : RequestException).

Inductive Level := ERROR | INFO.

Record LogRecord := { level : Level; message : str }.

Record Button := { label : str; callback_data : str }.

Abbreviation Keyboard := (list (list Button)).

Inductive ParseMode := HTML.

Record Message := {
  msg_text : str;
  parse_mode : ParseMode;
  reply_markup : option Keyboard;
}.

Record World := {
  sent : list Request;      (** the HTTP requests issued so far *)
  log : list LogRecord;     (** the records the logger emitted *)
  chat : list Message;      (** the messages of the chat, by position *)
}.

(** What the handlers read but do not change: the clock and the network. *)
Record Env := {
  now_year : N;
  net : Request → Outcome;
}.

Definition Prog (A : Type) : Type := World → A * World.

Definition ret {A} (a : A) : Prog A := λ w, (a, w).

Definition bind {A B} (m : Prog A) (k : A → Prog B) : Prog B :=
  λ w, let '(a, w') := m w in k a w'.

Notation "'let*' x ':=' m 'in' k" := (bind m (λ x, k))
  (at level 10, x name, m at level 100, k at level 200).

Definition requests_get (env : Env) (req : Request) : Prog Outcome :=
  λ w, (net env req, {| sent := sent w ++ [req]; log := log w; chat := chat w |}).

Definition logger_error (msg : str) : Prog () :=
  λ w, (tt, {| sent := sent w;
               log := log w ++ [{| level := ERROR; message := msg |}];
               chat := chat w |}).

(** [message.reply_text]: a new message; its position identifies it. *)
Definition reply_text (text : str) (markup : option Keyboard) : Prog nat :=
  λ w, (length (chat w),
        {| sent := sent w; log := log w;
           chat := chat w ++ [{| msg_text := text; parse_mode := HTML;
                                 reply_markup := markup |}] |}).

(** [msg.edit_text]: the message at that position is replaced. *)
Definition edit_text (i : nat) (text : str) (markup : option Keyboard) : Prog () :=
  λ w, (tt,
        {| sent := sent w; log := log w;
           chat := <[i := {| msg_text := text; parse_mode := HTML;
                             reply_markup := markup |}]> (chat w) |}).

(** ** StatusClassifier *)

Definition HEADERS : dict :=
  list_to_map [
    (lit "Host", lit "questure.poliziadistato.it");
    (lit "Sec-Ch-Ua",
      dq ++ lit "Not(A:Brand" ++ dq ++ lit ";v=" ++ dq ++ lit "8" ++ dq
      ++ lit ", " ++ dq ++ lit "Chromium" ++ dq ++ lit ";v=" ++ dq
      ++ lit "144" ++ dq);
    (lit "Sec-Ch-Ua-Mobile", lit "?0");
    (lit "Sec-Ch-Ua-Platform", dq ++ lit "Windows" ++ dq);
    (lit "Accept-Language", lit "en-US,en;q=0.9");
    (lit "Upgrade-Insecure-Requests", lit "1");
    (lit "User-Agent",
      lit "Mozilla/5.0 (Windows NT 10.0; Win64; x64) "
      ++ lit "AppleWebKit/537.36 (KHTML, like Gecko) "
      ++ lit "Chrome/144.0.0.0 Safari/537.36");
    (lit "Accept",
      lit "text/html,application/xhtml+xml,application/xml;q=0.9,"
      ++ lit "image/avif,image/webp,image/apng,*/*;q=0.8,"
      ++ lit "application/signed-exchange;v=b3;q=0.7");
    (lit "Sec-Fetch-Site", lit "same-origin");
    (lit "Sec-Fetch-Mode", lit "navigate");
    (lit "Sec-Fetch-User", lit "?1");
    (lit "Sec-Fetch-Dest", lit "document");
    (lit "Accept-Encoding", lit "gzip, deflate, br");
    (lit "Priority", lit "u=0, i")
  ].

Definition COOKIES : dict := {[ lit "cookieconsent_status" := lit "dismiss" ]}.

Definition BASE_URL : str := lit "https://questure.poliziadistato.it/stranieri/".

(** [Response.raise_for_status] of the [requests] library: an [HTTPError]
    whose message names the status, for a status from 400 to 599; no
    exception for any other status. *)
Definition raise_for_status (resp : Response) : option RequestException :=
  let sc := status_code resp in
  if (400 <=? sc) && (sc <? 500) then
    Some (HTTPError (str_of_N sc ++ lit " Client Error: " ++ reason resp
                     ++ lit " for url: " ++ resp_url resp))
  else if (500 <=? sc) && (sc <? 600) then
    Some (HTTPError (str_of_N sc ++ lit " Server Error: " ++ reason resp
                     ++ lit " for url: " ++ resp_url resp))
  else None.

(** The request [check_permit_status] builds for a code. *)
Definition permit_request (permit_code : str) : Request :=
  let params : dict :=
    {[ lit "lang" := lit "italian";
       lit "mime" := [];
       lit "pratica" := permit_code;
       lit "invia" := lit "Invia" ]} in
  let referer :=
    lit "https://questure.poliziadistato.it/stranieri/"
    ++ lit "?lang=italian&mime=&pratica=" ++ permit_code ++ lit "&invia=Invia" in
  let headers : dict := <[lit "Referer" := referer]> HEADERS in
  {| url := BASE_URL; params := params; headers := headers;
     cookies := COOKIES; verify := false; timeout := 20 |}.

Section Classifier.
Context `{UnicodeData}.

(** The rest of the [try] block once [requests.get] is back: the lowered
    body, or the exception the [except] clause receives. *)
Definition try_body (outcome : Outcome) : str + RequestException :=
  match outcome with
  | Raised exc => inr exc
  | Returned resp =>
      match raise_for_status resp with
      | Some exc => inr exc
      | None => inl (str_lower (text resp))
      end
  end.

Definition check_permit_status (env : Env) (permit_code : str) : Prog dict :=
  let* outcome := requests_get env (permit_request permit_code) in
  match try_body outcome with
  | inr exc =>
      let* _ := logger_error (lit "Request failed for " ++ permit_code
                              ++ lit ": " ++ exc_str exc) in
      ret ERROR_RESULT
  | inl body =>
      if contains (lit "la consegna") body then ret READY_RESULT
      else if contains (lit "in trattazione") body then ret PROCESSING_RESULT
      else ret UNKNOWN_RESULT
  end.
End Classifier.

(** ** EventRouter: the free-text handler *)

Definition REJECTION : str :=
  [0x1f914] ++ lit "  That doesn't look like a permit code." ++ nl ++ nl
  ++ lit "Send a <b>6-digit</b> or <b>10-character</b> alphanumeric code," ++ nl
  ++ lit "or tap /start to see the menu.".

Definition CHECKING : str :=
  [0x23f3] ++ lit "  <i>Checking your permit status, please wait" ++ [0x2026]
  ++ lit "</i>".

Definition RESULT_KEYBOARD : Keyboard :=
  [ [ {| label := [0x1f504] ++ lit "  Check Another"; callback_data := lit "check" |} ];
    [ {| label := [0x1f3e0] ++ lit "  Main Menu"; callback_data := lit "home" |} ] ].

Section Router.
Context `{UnicodeData}.

(** [handle_message] on the text of the update.  The result is [None] when
    an exception leaves the handler. *)
Definition handle_message (env : Env) (message_text : str) : Prog (option ()) :=
  let text := strip message_text in
  if negb (is_permit_code text) then
    let* _ := reply_text REJECTION None in
    ret (Some tt)
  else
    let permit_code := normalize_permit_code (now_year env) text in
    let* checking_msg := reply_text CHECKING None in
    let* result := check_permit_status env permit_code in
    match build_result_message permit_code result with
    | None => ret None
    | Some reply =>
        let* _ := edit_text checking_msg reply (Some RESULT_KEYBOARD) in
        ret (Some tt)
    end.
End Router.

(** ** What the proofs use of the Unicode database

    Four facts about the tables of the interpreter, each a property of the
    Unicode character database. *)

Definition nonspace (c : N) : Prop := isspace c = false.

Definition space (c : N) : Prop := isspace c = true.

(** Neither end of the string is a white-space character. *)
Definition trimmed (s : str) : Prop :=
  (∀ c, head s = Some c → nonspace c) ∧ (∀ c, last s = Some c → nonspace c).

Section UnicodeLaws.
Context `{UnicodeData}.

(** A decimal digit has no case: upper-casing leaves it alone. *)
Definition upper_fixes_decimals : Prop :=
  ∀ c, 128 ≤ c → isdecimal_db c = true → toupper_full c = [c].

(** A decimal digit is not white space. *)
Definition decimals_not_space : Prop :=
  ∀ c, 128 ≤ c → isdecimal_db c = true → nonspace c.

(** An upper-case mapping is already in upper case. *)
Definition upper_idempotent : Prop :=
  ∀ c, 128 ≤ c → upper (toupper_full c) = toupper_full c.

(** The upper-case mapping of a character that is not white space is not
    empty and holds no white space. *)
Definition upper_keeps_nonspace : Prop :=
  ∀ c, 128 ≤ c → nonspace c →
       toupper_full c ≠ [] ∧ Forall nonspace (toupper_full c).
End UnicodeLaws.

(** A small database for examples.  It is exact on the code points below
    256 and on the Arabic-Indic digits, and leaves every other character
    alone. *)
Definition latin_toupper (c : N) : str :=
  if c =? 0xdf then [83; 83]
  else if c =? 0xb5 then [0x39c]
  else if c =? 0xff then [0x178]
  else if (0xe0 <=? c) && (c <=? 0xfe) && negb (c =? 0xf7) then [c - 32]
  else [c].

Definition latin_tolower (c : N) : N :=
  if c <? 128 then ascii_tolower c
  else if (0xc0 <=? c) && (c <=? 0xde) && negb (c =? 0xd7) then c + 32
  else c.

Definition latin_tables : UnicodeData :=
  {| toupper_full := latin_toupper;
     isdecimal_db := λ c, (0x660 <=? c) && (c <=? 0x669);
     str_lower := map latin_tolower |}.

(** Worlds and environments for examples. *)
Definition empty_world : World := {| sent := []; log := []; chat := [] |}.

Definition ok_response (body : str) : Response :=
  {| status_code := 200; reason := lit "OK"; resp_url := BASE_URL; text := body |}.

Definition env_2026 (outcome : Outcome) : Env :=
  {| now_year := 2026; net := λ _, outcome |}.

(** The four verdicts. *)
Definition VERDICTS : list dict :=
  [READY_RESULT; PROCESSING_RESULT; UNKNOWN_RESULT; ERROR_RESULT].

(** The keys of [STATUS_COLORS]. *)
Definition KNOWN_STATUSES : list str :=
  [lit "ready"; lit "processing"; lit "unknown"; lit "error"].

(** The "Permit Code" line and the beginning of the "Status" line of the
    block, as [build_result_message] lays them out. *)
Definition permit_code_line (permit_code : str) : str :=
  [0x1f4c4] ++ lit "  <b>Permit Code:</b>  <code>" ++ permit_code
  ++ lit "</code>" ++ nl.

Definition status_line (dot title : str) : str :=
  nl ++ dot ++ lit "  <b>Status:</b>  " ++ title ++ nl.

(** The message [handle_message] leaves in the chat for a block. *)
Definition result_message (block : str) : Message :=
  {| msg_text := block; parse_mode := HTML; reply_markup := Some RESULT_KEYBOARD |}.

Definition rejection_message : Message :=
  {| msg_text := REJECTION; parse_mode := HTML; reply_markup := None |}.

(** The transport failures the [except] clause receives: [requests.get]
    raised, or [raise_for_status] raised on a 4xx or 5xx status. *)
Inductive transport_failure : Outcome → RequestException → Prop :=
  | failure_raised exc : transport_failure (Raised exc) exc
  | failure_status resp exc :
      400 ≤ status_code resp < 600 →
      raise_for_status resp = Some exc →
      transport_failure (Returned resp) exc.

(** ** EventRouter: the screens and the dispatch of [main] *)

(** [main_menu_keyboard()] *)
Definition main_menu_keyboard : Keyboard :=
  [ [ {| label := [0x1f50d] ++ lit "  Check Permit Status";
         callback_data := lit "check" |} ];
    [ {| label := [0x2139; 0xfe0f] ++ lit "  Help";
         callback_data := lit "help" |} ] ].

(** The text [welcome] of [start]. *)
Definition start_welcome (year : N) : str :=
  [0x1f1ee; 0x1f1f9] ++ lit "  <b>Permesso di Soggiorno Tracker</b>" ++ nl
  ++ str_mul [0x2501] 30 ++ nl ++ nl
  ++ lit "Welcome! I can check the status of your" ++ nl
  ++ lit "<b>Italian residence permit</b> (Permesso di Soggiorno)" ++ nl
  ++ lit "directly from the Polizia di Stato portal." ++ nl ++ nl
  ++ [0x1f4cc] ++ lit " <b>How it works:</b>" ++ nl
  ++ lit "  Just send me your permit code anytime!" ++ nl
  ++ lit "  (e.g. <code>26BO123456</code> or just <code>123456</code>)" ++ nl ++ nl
  ++ [0x1f4a1] ++ lit " <i>Tip: If you send only 6 digits, the current" ++ nl
  ++ lit "year (<code>" ++ year_prefix year ++ lit "</code>) is added automatically.</i>" ++ nl ++ nl
  ++ str_mul [0x2500] 30 ++ nl
  ++ [0x1f447] ++ lit "  <i>Choose an option or just type your code</i>".

(** The text [prompt] of [check_button]. *)
Definition check_button_prompt (year : N) : str :=
  [0x1f4dd] ++ lit "  <b>Enter Your Permit Code</b>" ++ nl
  ++ str_mul [0x2500] 28 ++ nl ++ nl
  ++ lit "Please type or paste your permit code." ++ nl ++ nl
  ++ [0x1f4cb] ++ lit "  <b>Accepted formats:</b>" ++ nl
  ++ lit "  " ++ [0x2022] ++ lit "  Full code:  <code>" ++ year_prefix year ++ lit "BO123456</code>  (10 chars)" ++ nl
  ++ lit "  " ++ [0x2022] ++ lit "  Short code: <code>123456</code>  (6 digits)" ++ nl ++ nl
  ++ [0x1f4a1] ++ lit " <i>If you send 6 digits, the current year" ++ nl
  ++ lit "prefix (<code>" ++ year_prefix year ++ lit "</code>) is added automatically.</i>".

(** The text [help_text] of [help_button]. *)
Definition help_button_text : str :=
  [0x2139; 0xfe0f] ++ lit "  <b>Help & Information</b>" ++ nl
  ++ str_mul [0x2501] 28 ++ nl ++ nl
  ++ [0x1f4d6] ++ lit "  <b>What is this bot?</b>" ++ nl
  ++ lit "This bot checks the status of your Italian" ++ nl
  ++ lit "residence permit (Permesso di Soggiorno) by" ++ nl
  ++ lit "querying the official Polizia di Stato portal." ++ nl ++ nl
  ++ [0x1f4cb] ++ lit "  <b>Accepted Formats:</b>" ++ nl
  ++ lit "  " ++ [0x2022] ++ lit "  <code>26BO123456</code>  " ++ [0x2014] ++ lit " full 10-char code" ++ nl
  ++ lit "  " ++ [0x2022] ++ lit "  <code>123456</code>  " ++ [0x2014] ++ lit " 6 digits (year auto-added)" ++ nl ++ nl
  ++ [0x1f6a6] ++ lit "  <b>Status Meanings:</b>" ++ nl ++ nl
  ++ [0x1f7e2] ++ lit "  <b>Ready for Pickup</b>" ++ nl
  ++ lit "  Your permit is ready! Book an appointment" ++ nl
  ++ lit "  at your Questura to collect it." ++ nl ++ nl
  ++ [0x1f7e1] ++ lit "  <b>Being Processed</b>" ++ nl
  ++ lit "  Your application is in progress." ++ nl
  ++ lit "  Check back periodically." ++ nl ++ nl
  ++ [0x1f534] ++ lit "  <b>Not Yet Started</b>" ++ nl
  ++ lit "  No info found. Processing hasn't begun" ++ nl
  ++ lit "  or the code might be wrong." ++ nl ++ nl
  ++ str_mul [0x2500] 28 ++ nl
  ++ [0x1f4ac] ++ lit "  <b>Commands:</b>" ++ nl
  ++ lit "  /start  " ++ [0x2014] ++ lit " Main menu" ++ nl
  ++ lit "  /check  " ++ [0x2014] ++ lit " Prompt for a permit code" ++ nl
  ++ lit "  /help   " ++ [0x2014] ++ lit " This help message" ++ nl ++ nl
  ++ str_mul [0x2500] 28 ++ nl.

(** The text [help_text] of [help_command]. *)
Definition help_command_text : str :=
  [0x2139; 0xfe0f] ++ lit "  <b>Help & Information</b>" ++ nl
  ++ str_mul [0x2501] 28 ++ nl ++ nl
  ++ [0x1f6a6] ++ lit "  <b>Status Meanings:</b>" ++ nl ++ nl
  ++ [0x1f7e2] ++ lit "  <b>Ready for Pickup</b> " ++ [0x2014] ++ lit " Book an appointment!" ++ nl
  ++ [0x1f7e1] ++ lit "  <b>Being Processed</b> " ++ [0x2014] ++ lit " Check back later." ++ nl
  ++ [0x1f534] ++ lit "  <b>Not Yet Started</b> " ++ [0x2014] ++ lit " Processing hasn't begun." ++ nl ++ nl
  ++ [0x1f4cb] ++ lit "  <b>Formats:</b>  <code>26BO123456</code> or <code>123456</code>" ++ nl ++ nl
  ++ [0x1f4ac] ++ lit "  <b>Commands:</b>  /start  /check  /help".

(** The text [prompt] of [check_command]. *)
Definition check_command_prompt (year : N) : str :=
  [0x1f4dd] ++ lit "  <b>Enter Your Permit Code</b>" ++ nl
  ++ str_mul [0x2500] 28 ++ nl ++ nl
  ++ lit "Please type or paste your permit code." ++ nl ++ nl
  ++ [0x1f4cb] ++ lit "  <b>Accepted formats:</b>" ++ nl
  ++ lit "  " ++ [0x2022] ++ lit "  Full code:  <code>" ++ year_prefix year ++ lit "BO123456</code>  (10 chars)" ++ nl
  ++ lit "  " ++ [0x2022] ++ lit "  Short code: <code>123456</code>  (6 digits)" ++ nl.

(** The keyboards of [help_button] and of [help_command]. *)
Definition help_button_keyboard : Keyboard :=
  [ [ {| label := [0x1f3e0] ++ lit "  Main Menu"; callback_data := lit "home" |} ] ].

Definition help_command_keyboard : Keyboard :=
  [ [ {| label := [0x1f50d] ++ lit "  Check Now"; callback_data := lit "check" |} ] ].

(** An update as the handlers see it: a message that starts with a bot
    command ([command] is the name the command handler compares: lower case,
    without the slash and the bot name), a text message that is no command,
    a press on an inline button ([message_id] is the position in the chat of
    the message that carries the button), or anything else (no message and
    no callback query). *)
Inductive Update :=
  | CommandUpdate (command text : str)
  | TextUpdate (text : str)
  | CallbackUpdate (query_id : nat) (data : str) (message_id : nat)
  | OtherUpdate.

(** The state the handlers act on: the world, and the callback queries that
    were answered. *)
Record Bot := {
  world : World;
  answered : list nat;
}.

Definition Handler (A : Type) : Type := Bot → A * Bot.

Definition hret {A} (a : A) : Handler A := λ b, (a, b).

Definition hbind {A B} (m : Handler A) (k : A → Handler B) : Handler B :=
  λ b, let '(a, b') := m b in k a b'.

Notation "'let+' x ':=' m 'in' k" := (hbind m (λ x, k))
  (at level 10, x name, m at level 100, k at level 200).

(** An action on the world, run by a handler. *)
Definition lift {A} (m : Prog A) : Handler A :=
  λ b, let '(a, w) := m (world b) in
       (a, {| world := w; answered := answered b |}).

(** [query.answer()] *)
Definition query_answer (query_id : nat) : Handler () :=
  λ b, (tt, {| world := world b; answered := answered b ++ [query_id] |}).

(** [start]: the welcome screen, written over the message of the button or
    sent as a reply.  The result is [None] when an exception leaves the
    handler ([update.message] is [None]). *)
Definition start (env : Env) (update : Update) : Handler (option ()) :=
  let welcome := start_welcome (now_year env) in
  match update with
  | CallbackUpdate query_id _ message_id =>
      let+ _ := query_answer query_id in
      let+ _ := lift (edit_text message_id welcome (Some main_menu_keyboard)) in
      hret (Some tt)
  | CommandUpdate _ _ | TextUpdate _ =>
      let+ _ := lift (reply_text welcome (Some main_menu_keyboard)) in
      hret (Some tt)
  | OtherUpdate => hret None
  end.

(** [check_button]; [None] when [update.callback_query] is [None]. *)
Definition check_button (env : Env) (update : Update) : Handler (option ()) :=
  match update with
  | CallbackUpdate query_id _ message_id =>
      let+ _ := query_answer query_id in
      let prompt := check_button_prompt (now_year env) in
      let+ _ := lift (edit_text message_id prompt None) in
      hret (Some tt)
  | _ => hret None
  end.

(** [handle_message] as a handler; [None] when [update.message] is [None]. *)
Definition handle_message_update (env : Env) `{UnicodeData} (update : Update)
    : Handler (option ()) :=
  match update with
  | CommandUpdate _ text | TextUpdate text => lift (handle_message env text)
  | _ => hret None
  end.

(** [help_button] *)
Definition help_button (env : Env) (update : Update) : Handler (option ()) :=
  match update with
  | CallbackUpdate query_id _ message_id =>
      let+ _ := query_answer query_id in
      let+ _ := lift (edit_text message_id help_button_text
                        (Some help_button_keyboard)) in
      hret (Some tt)
  | _ => hret None
  end.

(** [help_command] *)
Definition help_command (env : Env) (update : Update) : Handler (option ()) :=
  match update with
  | CommandUpdate _ _ | TextUpdate _ =>
      let+ _ := lift (reply_text help_command_text (Some help_command_keyboard)) in
      hret (Some tt)
  | _ => hret None
  end.

(** [check_command] *)
Definition check_command (env : Env) (update : Update) : Handler (option ()) :=
  match update with
  | CommandUpdate _ _ | TextUpdate _ =>
      let+ _ := lift (reply_text (check_command_prompt (now_year env)) None) in
      hret (Some tt)
  | _ => hret None
  end.

(** The three kinds of handler [main] registers, with what they accept:
    a command name, a pattern [^literal$] for the callback data, or
    [filters.TEXT & ~filters.COMMAND]. *)
Inductive HandlerKind :=
  | CommandHandler (command : str)
  | CallbackQueryHandler (literal : str)
  | MessageHandler.

(** [re.match("^literal$", data)] *)
Definition re_match_literal (literal data : str) : bool :=
  starts_with literal data && at_dollar (drop (length literal) data).

Definition check_update (kind : HandlerKind) (update : Update) : bool :=
  match kind, update with
  | CommandHandler command, CommandUpdate name _ => bool_decide (name = command)
  | CallbackQueryHandler literal, CallbackUpdate _ data _ =>
      re_match_literal literal data
  | MessageHandler, TextUpdate _ => true
  | _, _ => false
  end.

Section Dispatch.
Context `{UnicodeData}.

(** The handlers of [main], in the order of registration. *)
Definition HANDLERS : list (HandlerKind * (Env → Update → Handler (option ()))) :=
  [ (CommandHandler (lit "start"), start);
    (CommandHandler (lit "check"), check_command);
    (CommandHandler (lit "help"), help_command);
    (CallbackQueryHandler (lit "check"), check_button);
    (CallbackQueryHandler (lit "help"), help_button);
    (CallbackQueryHandler (lit "home"), start);
    (MessageHandler, λ env update, handle_message_update env update) ].

(** What the application does with one update: the first handler that
    accepts it runs; an update no handler accepts is dropped. *)
Definition process_update (env : Env) (update : Update) : Handler (option ()) :=
  match find (λ h, check_update h.1 update) HANDLERS with
  | Some (_, callback) => callback env update
  | None => hret (Some tt)
  end.
End Dispatch.

(** A button is live when some callback handler of [main] accepts its data;
    a chat is live when every button of every message is. *)
Definition live_data (data : str) : Prop :=
  re_match_literal (lit "check") data = true
  ∨ re_match_literal (lit "help") data = true
  ∨ re_match_literal (lit "home") data = true.

Definition live_keyboard (keyboard : Keyboard) : Prop :=
  Forall (Forall (λ button, live_data (callback_data button))) keyboard.

Definition live_message (m : Message) : Prop :=
  match reply_markup m with
  | Some keyboard => live_keyboard keyboard
  | None => True
  end.

(** A message with its text and keyboard, and a bot state with a new chat
    and list of answered queries: what the screen handlers produce. *)
Definition screen (text : str) (markup : option Keyboard) : Message :=
  {| msg_text := text; parse_mode := HTML; reply_markup := markup |}.

Definition set_chat (b : Bot) (c : list Message) (ans : list nat) : Bot :=
  {| world := {| sent := sent (world b); log := log (world b); chat := c |};
     answered := ans |}.

Definition empty_bot : Bot := {| world := empty_world; answered := [] |}.

(** Decide the comparisons of a goal one at a time, closing the branches
    that arithmetic refutes as they appear. *)
Ltac cmp_cases :=
  repeat (match goal with
          | |- context [?a <=? ?b] => destruct (N.leb_spec a b)
          | |- context [?a <? ?b] => destruct (N.ltb_spec a b)
          | |- context [?a =? ?b] => destruct (N.eqb_spec a b)
          end; cbn [andb orb negb] in *; try lia; try done).

(** * Properties *)

(** ** Substrings *)

Lemma starts_with_spec (sub s : str) :
  starts_with sub s = true ↔ ∃ post, s = sub ++ post.
Proof.
  revert s. induction sub as [|a sub IH]; intros s.
  - simpl. split; [eauto | done].
  - destruct s as [|b s]; simpl.
    + split; [done | intros [post Hp]; discriminate Hp].
    + rewrite andb_true_iff, N.eqb_eq, IH. split.
      * intros [-> [post ->]]. eauto.
      * intros [post Hp]. injection Hp as -> ->. eauto.
Qed.

Lemma contains_spec (sub s : str) : contains sub s = true ↔ Substr sub s.
Proof.
  unfold Substr. induction s as [|b s IH].
  - simpl. rewrite orb_false_r, starts_with_spec. split.
    + intros [post Hp]. exists [], post. done.
    + intros [pre [post Hp]]. destruct pre; [eauto | discriminate Hp].
  - cbn [contains]. rewrite orb_true_iff, starts_with_spec, IH. split.
    + intros [[post Hp] | [pre [post Hp]]].
      * exists [], post. done.
      * exists (b :: pre), post. by rewrite Hp.
    + intros [[|c pre] [post Hp]].
      * left. eauto.
      * right. injection Hp as -> ->. eauto.
Qed.

Lemma contains_false (sub s : str) : contains sub s = false ↔ ¬ Substr sub s.
Proof.
  rewrite <- contains_spec. destruct (contains sub s); naive_solver.
Qed.

Lemma Substr_intro (pre sub post : str) : Substr sub (pre ++ sub ++ post).
Proof. by exists pre, post. Qed.

(** ** Trimming *)

Lemma head_rev (s : str) : head (rev s) = last s.
Proof.
  induction s as [|a s IH]; [done|].
  destruct s as [|b s]; [done|].
  change (last (a :: b :: s)) with (last (b :: s)). rewrite <- IH.
  simpl. by destruct (rev s).
Qed.

Lemma last_rev (s : str) : last (rev s) = head s.
Proof. rewrite <- (head_rev (rev s)). by rewrite rev_involutive. Qed.

Lemma lstrip_head (s : str) c : head (lstrip s) = Some c → nonspace c.
Proof.
  induction s as [|a s IH]; simpl; [done|].
  destruct (isspace a) eqn:Ha; [done|]. simpl. by intros [= <-].
Qed.

Lemma lstrip_id (s : str) : (∀ c, head s = Some c → nonspace c) → lstrip s = s.
Proof.
  destruct s as [|a s]; simpl; [done|]. intros Hh.
  by rewrite (Hh a eq_refl).
Qed.

Lemma lstrip_last (s : str) c : last (lstrip s) = Some c → last s = Some c.
Proof.
  induction s as [|a s IH]; simpl; [done|].
  destruct (isspace a); [|done]. intros Hl.
  destruct s as [|b s]; [done|]. by apply IH.
Qed.

Lemma rstrip_last (s : str) c : last (rstrip s) = Some c → nonspace c.
Proof. unfold rstrip. rewrite last_rev. apply lstrip_head. Qed.

Lemma rstrip_head (s : str) c : head (rstrip s) = Some c → head s = Some c.
Proof.
  unfold rstrip. rewrite <- last_rev, rev_involutive. intros Hl.
  apply lstrip_last in Hl. by rewrite last_rev in Hl.
Qed.

Lemma rstrip_id (s : str) : (∀ c, last s = Some c → nonspace c) → rstrip s = s.
Proof.
  intros Hl. unfold rstrip. rewrite lstrip_id; [apply rev_involutive|].
  intros c. rewrite head_rev. apply Hl.
Qed.

Lemma strip_trimmed (s : str) : trimmed (strip s).
Proof.
  split; intros c Hc.
  - apply rstrip_head in Hc. by apply lstrip_head in Hc.
  - by apply rstrip_last in Hc.
Qed.

Lemma strip_id (s : str) : trimmed s → strip s = s.
Proof.
  intros [Hh Hl]. unfold strip. rewrite (lstrip_id s Hh). by apply rstrip_id.
Qed.

Lemma strip_idem (s : str) : strip (strip s) = strip s.
Proof. apply strip_id, strip_trimmed. Qed.

Lemma Forall_nonspace_trimmed (s : str) : Forall nonspace s → trimmed s.
Proof.
  intros Hs. split; intros c Hc.
  - destruct s as [|a s]; [done|]. injection Hc as <-. by inversion Hs.
  - apply last_Some_elem_of in Hc. by eapply Forall_forall in Hs; [|done].
Qed.

(** ** The regular expressions *)

Lemma at_dollar_spec (rest : str) : at_dollar rest = true ↔ rest = [] ∨ rest = [10].
Proof.
  destruct rest as [|c [|d rest]]; simpl.
  - split; [by left | done].
  - rewrite N.eqb_eq. split; [intros ->; by right | by intros [[=] | [= ->]]].
  - split; [done | by intros [[=] | [=]]].
Qed.

(** [^C{lo,hi}$] matches exactly when a run of [lo] to [hi] characters of the
    class is followed by the end of the string or by its final newline. *)
Lemma re_match_rep_spec (cls : N → bool) (lo hi : nat) (s : str) :
  re_match_rep cls lo hi s = true ↔
  ∃ pre rest, s = pre ++ rest ∧ (lo ≤ length pre ≤ hi)%nat
              ∧ Forall (λ c, cls c = true) pre ∧ at_dollar rest = true.
Proof.
  assert (Hstop : ∀ lo hi t,
    (hi = 0%nat ∨ t = [] ∨ ∃ c t', t = c :: t' ∧ cls c = false) →
    (Nat.eqb lo 0 && at_dollar t = true ↔
     ∃ pre rest, t = pre ++ rest ∧ (lo ≤ length pre ≤ hi)%nat
                 ∧ Forall (λ c, cls c = true) pre ∧ at_dollar rest = true)).
  { clear. intros lo hi t Hcase. rewrite andb_true_iff, Nat.eqb_eq. split.
    - intros [-> Hd]. exists [], t.
      split_and!; [done | simpl; lia | simpl; lia | constructor | done].
    - intros ([|a pre] & rest & Ht & Hlen & Hpre & Hd).
      + simpl in Ht, Hlen. subst rest. split; [lia | done].
      + exfalso. destruct Hcase as [-> | [-> | (c & t' & -> & Hc)]].
        * simpl in Hlen. lia.
        * discriminate Ht.
        * injection Ht as -> ->. inversion Hpre; subst. congruence. }
  revert lo s. induction hi as [|hi IH]; intros lo s.
  - replace (re_match_rep cls lo 0 s) with (Nat.eqb lo 0 && at_dollar s)
      by (by destruct s).
    apply Hstop. by left.
  - destruct s as [|c s].
    + change (re_match_rep cls lo (S hi) []) with (Nat.eqb lo 0 && at_dollar []).
      apply Hstop. right. by left.
    + cbn [re_match_rep]. destruct (cls c) eqn:Hc.
      * rewrite orb_true_iff, IH, andb_true_iff, Nat.eqb_eq. split.
        -- intros [(pre & rest & -> & Hlen & Hpre & Hd) | [-> Hd]].
           ++ exists (c :: pre), rest.
              split_and!; [done | simpl; lia | simpl; lia | by constructor | done].
           ++ exists [], (c :: s).
              split_and!; [done | simpl; lia | simpl; lia | constructor | done].
        -- intros ([|a pre] & rest & Hs & Hlen & Hpre & Hd).
           ++ right. simpl in Hs, Hlen. subst rest. split; [lia | done].
           ++ left. injection Hs as -> ->. exists pre, rest.
              inversion Hpre; subst. simpl in Hlen.
              split_and!; [done | lia | lia | done | done].
      * apply Hstop. right. right. by exists c, s.
Qed.

(** On a string that does not end in white space, [$] can only be the end. *)
Lemma re_match_rep_trimmed (cls : N → bool) (lo hi : nat) (s : str) :
  (∀ c, last s = Some c → nonspace c) →
  re_match_rep cls lo hi s = true ↔
  (lo ≤ length s ≤ hi)%nat ∧ Forall (λ c, cls c = true) s.
Proof.
  intros Hl. rewrite re_match_rep_spec. split.
  - intros (pre & rest & -> & Hlen & Hpre & Hd).
    apply at_dollar_spec in Hd as [-> | ->].
    + by rewrite app_nil_r.
    + specialize (Hl 10). rewrite last_snoc in Hl. by specialize (Hl eq_refl).
  - intros [Hlen Hs]. exists s, []. by rewrite app_nil_r.
Qed.

(** ** Character classes *)

Lemma isspace_false_iff (c : N) :
  nonspace c ↔
  (c < 9 ∨ 13 < c) ∧ (c < 28 ∨ 32 < c) ∧ c ≠ 0x85 ∧ c ≠ 0xa0 ∧ c ≠ 0x1680
  ∧ (c < 0x2000 ∨ 0x200a < c) ∧ c ≠ 0x2028 ∧ c ≠ 0x2029 ∧ c ≠ 0x202f
  ∧ c ≠ 0x205f ∧ c ≠ 0x3000.
Proof.
  unfold nonspace, isspace.
  rewrite !orb_false_iff, !andb_false_iff, !N.leb_gt, !N.eqb_neq. lia.
Qed.

Lemma is_alnum_iff (c : N) :
  is_alnum c = true ↔ 65 ≤ c ≤ 90 ∨ 97 ≤ c ≤ 122 ∨ 48 ≤ c ≤ 57.
Proof.
  unfold is_alnum, is_ascii_upper, is_ascii_lower, is_ascii_digit.
  rewrite !orb_true_iff, !andb_true_iff, !N.leb_le. lia.
Qed.

Lemma is_ascii_digit_iff (c : N) : is_ascii_digit c = true ↔ 48 ≤ c ≤ 57.
Proof. unfold is_ascii_digit. rewrite andb_true_iff, !N.leb_le. lia. Qed.

Lemma is_alnum_nonspace (c : N) : is_alnum c = true → nonspace c.
Proof. rewrite is_alnum_iff, isspace_false_iff. lia. Qed.

Lemma is_ascii_digit_nonspace (c : N) : is_ascii_digit c = true → nonspace c.
Proof. rewrite is_ascii_digit_iff, isspace_false_iff. lia. Qed.

Lemma Forall_alnum_trimmed (s : str) :
  Forall (λ c, is_alnum c = true) s → trimmed s.
Proof.
  intros Hs. apply Forall_nonspace_trimmed.
  eapply Forall_impl; [exact Hs | apply is_alnum_nonspace].
Qed.

(** ** [is_permit_code] *)

(** C5. [is_permit_code] accepts a text exactly when, once trimmed, it is 6
    to 20 characters long and made of ASCII letters and digits only; so it
    rejects a trimmed text that is shorter than 6, longer than 20, or holds
    any other character. *)
Theorem is_permit_code_iff (text : str) :
  (is_permit_code text = true ↔
     (6 ≤ length (strip text) ≤ 20)%nat
     ∧ Forall (λ c, 65 ≤ c ≤ 90 ∨ 97 ≤ c ≤ 122 ∨ 48 ≤ c ≤ 57) (strip text))
  ∧ (is_permit_code text = false ↔
     (length (strip text) < 6)%nat ∨ (20 < length (strip text))%nat
     ∨ Exists (λ c, ¬ (65 ≤ c ≤ 90 ∨ 97 ≤ c ≤ 122 ∨ 48 ≤ c ≤ 57)) (strip text)).
Proof.
  assert (Htrue : is_permit_code text = true ↔
     (6 ≤ length (strip text) ≤ 20)%nat
     ∧ Forall (λ c, 65 ≤ c ≤ 90 ∨ 97 ≤ c ≤ 122 ∨ 48 ≤ c ≤ 57) (strip text)).
  { unfold is_permit_code, re_alnum_6_20.
    rewrite re_match_rep_trimmed by apply strip_trimmed.
    apply and_iff_compat_l. apply Forall_iff. intros c. apply is_alnum_iff. }
  split; [exact Htrue|].
  rewrite <- not_true_iff_false, Htrue. split.
  - intros Hn.
    destruct (decide (length (strip text) < 6)%nat) as [|H6]; [by left|].
    destruct (decide (20 < length (strip text))%nat) as [|H20]; [by right; left|].
    right. right. apply not_Forall_Exists; [intros c; apply _|].
    intros Hall. apply Hn. split; [lia | done].
  - intros [Hlt | [Hgt | Hex]] [Hlen Hall]; [lia | lia |].
    by apply Exists_not_Forall in Hex.
Qed.

(** [is_permit_code] trims by itself, so trimming first changes nothing. *)
Lemma is_permit_code_strip (text : str) :
  is_permit_code (strip text) = is_permit_code text.
Proof. unfold is_permit_code. by rewrite strip_idem. Qed.

(** ** The year prefix *)

Lemma year_prefix_digits (year : N) :
  year_prefix year = [48 + (year mod 100) / 10; 48 + (year mod 100) mod 10].
Proof.
  unfold year_prefix.
  assert (Hall : Forall (λ k, zfill 2 (str_of_N (N.of_nat k))
                              = [48 + N.of_nat k / 10; 48 + N.of_nat k mod 10])
                        (seq 0 100)).
  { apply (bool_decide_unpack _). by vm_compute. }
  rewrite Forall_forall in Hall.
  pose proof (N.mod_upper_bound year 100 ltac:(lia)) as Hlt.
  specialize (Hall (N.to_nat (year mod 100))).
  rewrite N2Nat.id in Hall. apply Hall. apply elem_of_seq.
  clear Hall. generalize dependent (year mod 100). intros n Hn. lia.
Qed.

Lemma year_prefix_ascii_digits (year : N) :
  Forall (λ c, is_ascii_digit c = true) (year_prefix year).
Proof.
  rewrite year_prefix_digits.
  pose proof (N.mod_upper_bound year 100 ltac:(lia)) as Hlt.
  pose proof (N.mod_upper_bound (year mod 100) 10 ltac:(lia)).
  assert ((year mod 100) / 10 < 10) by (apply N.Div0.div_lt_upper_bound; lia).
  generalize dependent ((year mod 100) / 10). intros hi Hhi.
  generalize dependent ((year mod 100) mod 10). intros lo Hlo.
  constructor; [apply is_ascii_digit_iff; lia|].
  constructor; [apply is_ascii_digit_iff; lia|]. constructor.
Qed.

Lemma year_prefix_length (year : N) : length (year_prefix year) = 2%nat.
Proof. by rewrite year_prefix_digits. Qed.

(** ** Upper-casing *)

Lemma ascii_toupper_lt (c : N) : c < 128 → ascii_toupper c < 128.
Proof. unfold ascii_toupper, is_ascii_lower. cmp_cases. Qed.

Lemma ascii_toupper_idem (c : N) : ascii_toupper (ascii_toupper c) = ascii_toupper c.
Proof. unfold ascii_toupper, is_ascii_lower. cmp_cases. Qed.

Lemma ascii_toupper_nonspace (c : N) : nonspace c → nonspace (ascii_toupper c).
Proof.
  rewrite !isspace_false_iff. unfold ascii_toupper, is_ascii_lower. cmp_cases.
Qed.

Lemma ascii_toupper_digit (c : N) : is_ascii_digit c = true → ascii_toupper c = c.
Proof.
  rewrite is_ascii_digit_iff. unfold ascii_toupper, is_ascii_lower. cmp_cases.
Qed.

Lemma ascii_toupper_alnum (c : N) : is_alnum c = true → is_alnum (ascii_toupper c) = true.
Proof.
  rewrite !is_alnum_iff. unfold ascii_toupper, is_ascii_lower. cmp_cases.
Qed.

(** Upper-casing a letter never yields a digit. *)
Lemma ascii_toupper_digit_inv (c : N) :
  is_ascii_digit (ascii_toupper c) = true → is_ascii_digit c = true.
Proof.
  rewrite !is_ascii_digit_iff. unfold ascii_toupper, is_ascii_lower. cmp_cases.
Qed.

Lemma head_flat_map {A B} (f : A → list B) (l : list A) a :
  head l = Some a → f a ≠ [] → head (flat_map f l) = head (f a).
Proof.
  destruct l as [|a' l]; [done|]. intros [= ->] Hne. simpl.
  by destruct (f a).
Qed.

Lemma last_flat_map {A B} (f : A → list B) (l : list A) a :
  last l = Some a → f a ≠ [] → last (flat_map f l) = last (f a).
Proof.
  intros Hl Hne. apply last_Some in Hl as [l' ->].
  rewrite flat_map_app. simpl. rewrite app_nil_r.
  destruct (f a) as [|b k] using rev_ind; [done|].
  by rewrite app_assoc, !last_snoc.
Qed.

Section Upper.
Context `{UnicodeData}.

Lemma upper_app (s t : str) : upper (s ++ t) = upper s ++ upper t.
Proof. apply flat_map_app. Qed.

Lemma upper_ascii (s : str) :
  Forall (λ c, c < 128) s → upper s = map ascii_toupper s.
Proof.
  induction 1 as [|c s Hc _ IH]; [done|].
  simpl. unfold upper_char. apply N.ltb_lt in Hc. rewrite Hc. simpl.
  f_equal. exact IH.
Qed.

Lemma is_decimal_ascii (c : N) : c < 128 → is_decimal c = is_ascii_digit c.
Proof. intros Hc. unfold is_decimal. apply N.ltb_lt in Hc. by rewrite Hc. Qed.

Lemma upper_char_decimal (c : N) :
  upper_fixes_decimals → is_decimal c = true → upper_char c = [c].
Proof.
  intros Hfix. unfold is_decimal, upper_char.
  destruct (N.ltb_spec c 128) as [Hc|Hc]; intros Hd.
  - by rewrite ascii_toupper_digit.
  - by apply Hfix.
Qed.

Lemma upper_decimals (s : str) :
  upper_fixes_decimals → Forall (λ c, is_decimal c = true) s → upper s = s.
Proof.
  intros Hfix. induction 1 as [|c s Hc _ IH]; [done|].
  simpl. rewrite upper_char_decimal by done. simpl. f_equal. exact IH.
Qed.

Lemma is_decimal_nonspace (c : N) :
  decimals_not_space → is_decimal c = true → nonspace c.
Proof.
  intros Hns. unfold is_decimal.
  destruct (N.ltb_spec c 128) as [Hc|Hc]; intros Hd.
  - by apply is_ascii_digit_nonspace.
  - by apply Hns.
Qed.

Lemma upper_char_idem (c : N) :
  upper_idempotent → upper (upper_char c) = upper_char c.
Proof.
  intros Hidem. unfold upper_char.
  destruct (N.ltb_spec c 128) as [Hc|Hc]; [|by apply Hidem].
  simpl. unfold upper_char.
  pose proof (ascii_toupper_lt c Hc) as Hlt. apply N.ltb_lt in Hlt.
  by rewrite Hlt, ascii_toupper_idem.
Qed.

Lemma upper_idem (s : str) : upper_idempotent → upper (upper s) = upper s.
Proof.
  intros Hidem. induction s as [|c s IH]; [done|].
  simpl. by rewrite upper_app, IH, upper_char_idem.
Qed.

Lemma upper_char_nonspace (c : N) :
  upper_keeps_nonspace → nonspace c →
  upper_char c ≠ [] ∧ Forall nonspace (upper_char c).
Proof.
  intros Hkeep Hc. unfold upper_char.
  destruct (N.ltb_spec c 128) as [Hlt|Hge]; [|by apply Hkeep].
  split; [done|]. constructor; [by apply ascii_toupper_nonspace | constructor].
Qed.

Lemma upper_trimmed (s : str) :
  upper_keeps_nonspace → trimmed s → trimmed (upper s).
Proof.
  intros Hkeep [Hh Hl]. split; intros d Hd.
  - destruct (head s) as [c|] eqn:Hc; [|by destruct s].
    destruct (upper_char_nonspace c Hkeep (Hh c eq_refl)) as [Hne Hall].
    unfold upper in Hd. rewrite (head_flat_map _ _ c Hc Hne) in Hd.
    apply head_Some_elem_of in Hd. by eapply Forall_forall in Hall.
  - destruct (last s) as [c|] eqn:Hc; [|by apply last_None in Hc as ->].
    destruct (upper_char_nonspace c Hkeep (Hl c eq_refl)) as [Hne Hall].
    unfold upper in Hd. rewrite (last_flat_map _ _ c Hc Hne) in Hd.
    apply last_Some_elem_of in Hd. by eapply Forall_forall in Hall.
Qed.
End Upper.

(** ** [normalize_permit_code] *)

Section NormalizerFacts.
Context `{UnicodeData}.

Lemma re_six_digits_trimmed (code : str) :
  (∀ c, last code = Some c → nonspace c) →
  re_six_digits code = true ↔
  length code = 6%nat ∧ Forall (λ c, is_decimal c = true) code.
Proof.
  intros Hl. unfold re_six_digits. rewrite re_match_rep_trimmed by done.
  apply and_iff_compat_r. lia.
Qed.

(** A code that is already trimmed, in upper case and not six digits is
    left as it is. *)
Lemma normalize_fixed (year : N) (code : str) :
  trimmed code → upper code = code → re_six_digits code = false →
  normalize_permit_code year code = code.
Proof.
  intros Ht Hu Hre. unfold normalize_permit_code.
  by rewrite (strip_id _ Ht), Hu, Hre.
Qed.
End NormalizerFacts.

(** C3. When the trimmed input is six decimal digits, [normalize_permit_code]
    returns the two digits of [year % 100] (zero-padded) followed by the
    trimmed input, eight characters in all. *)
Theorem normalize_six_digits `{UnicodeData} (year : N) (raw : str) :
  upper_fixes_decimals →
  length (strip raw) = 6%nat →
  Forall (λ c, is_decimal c = true) (strip raw) →
  normalize_permit_code year raw
    = [48 + (year mod 100) / 10; 48 + (year mod 100) mod 10] ++ strip raw
  ∧ length (normalize_permit_code year raw) = 8%nat.
Proof.
  intros Hfix Hlen Hdec. unfold normalize_permit_code.
  rewrite (upper_decimals _ Hfix Hdec).
  assert (Hre : re_six_digits (strip raw) = true).
  { apply re_six_digits_trimmed; [apply strip_trimmed | done]. }
  rewrite Hre, year_prefix_digits. split; [done|].
  simpl. by rewrite Hlen.
Qed.

(** C4. An input of 6 to 20 ASCII letters and digits that is not exactly six
    digits comes back upper-cased and otherwise unchanged. *)
Theorem normalize_alnum_passthrough `{UnicodeData} (year : N) (s : str) :
  (6 ≤ length s ≤ 20)%nat →
  Forall (λ c, is_alnum c = true) s →
  ¬ (length s = 6%nat ∧ Forall (λ c, is_decimal c = true) s) →
  normalize_permit_code year s = upper s
  ∧ upper s = map ascii_toupper s.
Proof.
  intros Hlen Hal Hnot.
  assert (H128 : Forall (λ c, c < 128) s).
  { eapply Forall_impl; [exact Hal|]. intros c. rewrite is_alnum_iff. lia. }
  assert (Hup : upper s = map ascii_toupper s) by by apply upper_ascii.
  split; [|done].
  unfold normalize_permit_code.
  rewrite (strip_id s) by by apply Forall_alnum_trimmed.
  destruct (re_six_digits (upper s)) eqn:Hre; [|done].
  exfalso. apply Hnot. rewrite Hup in Hre.
  assert (Hal' : Forall (λ c, is_alnum c = true) (map ascii_toupper s)).
  { apply List.Forall_map. eapply Forall_impl; [exact Hal|].
    apply ascii_toupper_alnum. }
  apply re_six_digits_trimmed in Hre;
    [|by apply (Forall_alnum_trimmed _ Hal')].
  destruct Hre as [Hl6 Hd]. rewrite length_map in Hl6. split; [done|].
  apply List.Forall_map in Hd.
  rewrite Forall_forall in Hd, H128. apply Forall_forall. intros c Hc.
  specialize (Hd c Hc). specialize (H128 c Hc).
  rewrite is_decimal_ascii in Hd by by apply ascii_toupper_lt.
  rewrite is_decimal_ascii by done. by apply ascii_toupper_digit_inv.
Qed.

(** C9. [normalize_permit_code] is idempotent, whatever the clock reads at
    either call: the prefixed code has eight characters and is not prefixed
    again, and trimming and upper-casing change nothing the second time. *)
Theorem normalize_idempotent `{UnicodeData} (year year' : N) (s : str) :
  upper_fixes_decimals → decimals_not_space →
  upper_idempotent → upper_keeps_nonspace →
  normalize_permit_code year' (normalize_permit_code year s)
  = normalize_permit_code year s.
Proof.
  intros Hfix Hns Hidem Hkeep.
  set (code := upper (strip s)).
  assert (Htrim : trimmed code) by (apply upper_trimmed, strip_trimmed; done).
  assert (Hup : upper code = code) by by apply upper_idem.
  replace (normalize_permit_code year s)
    with (if re_six_digits code then year_prefix year ++ code else code) by done.
  destruct (re_six_digits code) eqn:Hre.
  - apply re_six_digits_trimmed in Hre as [Hlen Hdec]; [|apply Htrim].
    assert (Hall : Forall (λ c, is_decimal c = true) (year_prefix year ++ code)).
    { apply Forall_app. split; [|done].
      eapply Forall_impl; [apply year_prefix_ascii_digits|].
      intros c Hc. rewrite is_decimal_ascii; [done|].
      apply is_ascii_digit_iff in Hc. lia. }
    apply normalize_fixed.
    + apply Forall_nonspace_trimmed. eapply Forall_impl; [exact Hall|].
      intros c. by apply is_decimal_nonspace.
    + by apply upper_decimals.
    + destruct (re_six_digits (year_prefix year ++ code)) eqn:Hre'; [|done].
      apply re_match_rep_spec in Hre' as (pre & rest & Heq & Hl & _ & Hd).
      apply (f_equal length) in Heq.
      rewrite !length_app, year_prefix_length, Hlen in Heq.
      apply at_dollar_spec in Hd as [-> | ->]; simpl in Heq; lia.
  - by apply normalize_fixed.
Qed.

(** ** The example database satisfies the four facts *)

Lemma latin_upper_fixes_decimals : @upper_fixes_decimals latin_tables.
Proof.
  intros c Hc Hd. simpl in *. apply andb_true_iff in Hd as [Hlo Hhi].
  apply N.leb_le in Hlo, Hhi. unfold latin_toupper. cmp_cases.
Qed.

Lemma latin_decimals_not_space : @decimals_not_space latin_tables.
Proof.
  intros c Hc Hd. simpl in *. apply andb_true_iff in Hd as [Hlo Hhi].
  apply N.leb_le in Hlo, Hhi. apply isspace_false_iff. lia.
Qed.

Lemma latin_upper_idempotent : @upper_idempotent latin_tables.
Proof.
  intros c Hc. cbn [toupper_full latin_tables].
  unfold latin_toupper.
  cmp_cases; unfold upper, flat_map, upper_char;
    cbn [toupper_full latin_tables]; unfold latin_toupper; cmp_cases.
Qed.

Lemma latin_upper_keeps_nonspace : @upper_keeps_nonspace latin_tables.
Proof.
  intros c Hc Hs. cbn [toupper_full latin_tables].
  apply isspace_false_iff in Hs.
  unfold latin_toupper.
  cmp_cases; (split; [done|]); repeat constructor;
    apply isspace_false_iff; lia.
Qed.

Lemma latin_ascii_digits (s : str) (U := latin_tables) :
  Forall (λ c, is_ascii_digit c = true) s → Forall (λ c, is_decimal c = true) s.
Proof.
  intros Hs. eapply Forall_impl; [exact Hs|].
  intros c Hc. rewrite is_decimal_ascii; [done|].
  apply is_ascii_digit_iff in Hc. lia.
Qed.

Lemma normalize_six_digits_witness :
  @normalize_permit_code latin_tables 2026 (lit " 123456 ") = lit "26123456"
  ∧ length (@normalize_permit_code latin_tables 2026 (lit " 123456 ")) = 8%nat.
Proof.
  apply (@normalize_six_digits latin_tables 2026 (lit " 123456 "));
    [exact latin_upper_fixes_decimals | reflexivity |].
  apply latin_ascii_digits, (bool_decide_unpack _). vm_compute. exact I.
Defined.

Lemma normalize_alnum_passthrough_witness :
  @normalize_permit_code latin_tables 2026 (lit "26bo123456")
    = @upper latin_tables (lit "26bo123456")
  ∧ @upper latin_tables (lit "26bo123456") = lit "26BO123456".
Proof.
  apply (@normalize_alnum_passthrough latin_tables 2026 (lit "26bo123456")).
  - simpl. lia.
  - apply (bool_decide_unpack _). vm_compute. exact I.
  - simpl. intros [Hlen _]. lia.
Defined.

Lemma normalize_idempotent_witness :
  @normalize_permit_code latin_tables 2027
     (@normalize_permit_code latin_tables 2026 (lit " 123456 "))
  = @normalize_permit_code latin_tables 2026 (lit " 123456 ").
Proof.
  apply (@normalize_idempotent latin_tables 2026 2027 (lit " 123456 ")).
  - exact latin_upper_fixes_decimals.
  - exact latin_decimals_not_space.
  - exact latin_upper_idempotent.
  - exact latin_upper_keeps_nonspace.
Defined.

(** ** [raise_for_status] *)

Lemma raise_for_status_none (resp : Response) :
  raise_for_status resp = None ↔ ¬ (400 ≤ status_code resp < 600).
Proof. unfold raise_for_status. cmp_cases; split; (done || lia). Qed.

Lemma raise_for_status_error (resp : Response) :
  400 ≤ status_code resp < 600 →
  ∃ msg, raise_for_status resp = Some (HTTPError msg)
         ∧ Substr (str_of_N (status_code resp)) msg.
Proof.
  intros Hsc. unfold raise_for_status.
  cmp_cases; eexists; (split; [reflexivity|]); by eexists [], _.
Qed.

(** ** [check_permit_status] *)

Section ClassifierFacts.
Context `{UnicodeData}.

(** The two ways out of [check_permit_status], with the world they leave. *)
Lemma check_permit_status_eq (env : Env) (code : str) (w : World) :
  check_permit_status env code w =
  match try_body (net env (permit_request code)) with
  | inr exc =>
      (ERROR_RESULT,
       {| sent := sent w ++ [permit_request code];
          log := log w ++ [{| level := ERROR;
                              message := lit "Request failed for " ++ code
                                         ++ lit ": " ++ exc_str exc |}];
          chat := chat w |})
  | inl body =>
      (if contains (lit "la consegna") body then READY_RESULT
       else if contains (lit "in trattazione") body then PROCESSING_RESULT
       else UNKNOWN_RESULT,
       {| sent := sent w ++ [permit_request code]; log := log w;
          chat := chat w |})
  end.
Proof.
  unfold check_permit_status, bind, requests_get, ret, logger_error.
  destruct (try_body _) as [body|exc]; [|done].
  by repeat destruct (contains _ body).
Qed.

Lemma try_body_success (resp : Response) :
  raise_for_status resp = None →
  try_body (Returned resp) = inl (str_lower (text resp)).
Proof. intros Hok. unfold try_body. by rewrite Hok. Qed.

Lemma try_body_failure (outcome : Outcome) (exc : RequestException) :
  transport_failure outcome exc → try_body outcome = inr exc.
Proof. intros [e | resp e _ Hr]; [done|]. unfold try_body. by rewrite Hr. Qed.

Lemma check_permit_status_verdict (env : Env) (code : str) (w : World) :
  (check_permit_status env code w).1 ∈ VERDICTS.
Proof.
  rewrite check_permit_status_eq. unfold VERDICTS.
  destruct (try_body _) as [body|exc]; simpl; [|set_solver].
  repeat destruct (contains _ body); set_solver.
Qed.

Lemma check_permit_status_world (env : Env) (code : str) (w : World) :
  sent (check_permit_status env code w).2 = sent w ++ [permit_request code]
  ∧ chat (check_permit_status env code w).2 = chat w.
Proof.
  rewrite check_permit_status_eq.
  by destruct (try_body _) as [body|exc].
Qed.
End ClassifierFacts.

Lemma status_of_verdicts :
  READY_RESULT !! lit "status" = Some (lit "ready")
  ∧ PROCESSING_RESULT !! lit "status" = Some (lit "processing")
  ∧ UNKNOWN_RESULT !! lit "status" = Some (lit "unknown")
  ∧ ERROR_RESULT !! lit "status" = Some (lit "error").
Proof. by vm_compute. Qed.

(** The four verdicts differ from one another. *)
Lemma VERDICTS_NoDup : NoDup VERDICTS.
Proof.
  destruct status_of_verdicts as (Hr & Hp & Hu & He).
  assert (Hne : ∀ (v v' : dict) st st',
             v !! lit "status" = Some st → v' !! lit "status" = Some st' →
             st ≠ st' → v ≠ v') by (intros v v' st st' ? ? Hst ->; congruence).
  unfold VERDICTS. repeat constructor; rewrite ?elem_of_cons, ?elem_of_nil;
    intros Hin; repeat destruct Hin as [Hin | Hin]; try done;
    revert Hin; eapply Hne; try eassumption; by vm_compute.
Qed.

(** C1. On a successful query the lowered body is matched in order, first
    match wins: ["la consegna"] gives Ready whatever else the body holds,
    otherwise ["in trattazione"] gives Processing, otherwise Unknown.  Every
    call, successful or not, produces exactly one of the four verdicts,
    which are pairwise distinct. *)
Theorem check_permit_status_first_match `{UnicodeData}
    (env : Env) (code : str) (w : World) (resp : Response) :
  net env (permit_request code) = Returned resp →
  raise_for_status resp = None →
  let body := str_lower (text resp) in
  let verdict := (check_permit_status env code w).1 in
  (Substr (lit "la consegna") body → verdict = READY_RESULT)
  ∧ (¬ Substr (lit "la consegna") body → Substr (lit "in trattazione") body →
     verdict = PROCESSING_RESULT)
  ∧ (¬ Substr (lit "la consegna") body → ¬ Substr (lit "in trattazione") body →
     verdict = UNKNOWN_RESULT)
  ∧ (∀ env' code' w', (check_permit_status env' code' w').1 ∈ VERDICTS)
  ∧ NoDup VERDICTS.
Proof.
  intros Hnet Hok body verdict.
  assert (Hv : verdict =
    if contains (lit "la consegna") body then READY_RESULT
    else if contains (lit "in trattazione") body then PROCESSING_RESULT
    else UNKNOWN_RESULT).
  { unfold verdict. rewrite check_permit_status_eq, Hnet, try_body_success by done.
    done. }
  split_and!.
  - intros Hla. apply contains_spec in Hla. by rewrite Hv, Hla.
  - intros Hla Hin. apply contains_false in Hla. apply contains_spec in Hin.
    by rewrite Hv, Hla, Hin.
  - intros Hla Hin. apply contains_false in Hla, Hin. by rewrite Hv, Hla, Hin.
  - intros env' code' w'. apply check_permit_status_verdict.
  - apply VERDICTS_NoDup.
Qed.

Lemma check_permit_status_first_match_witness :
  let body := lit "pratica in trattazione; documento pronto per la consegna" in
  (@check_permit_status latin_tables
     (env_2026 (Returned (ok_response body))) (lit "26123456") empty_world).1
  = READY_RESULT.
Proof.
  intros body.
  refine (proj1 (@check_permit_status_first_match latin_tables
            (env_2026 (Returned (ok_response body))) (lit "26123456")
            empty_world (ok_response body) eq_refl eq_refl) _).
  apply contains_spec. by vm_compute.
Defined.

(** C6 (as amended). When [requests.get] raises, or the status is 4xx or
    5xx, [check_permit_status] returns the error verdict at once: it has
    issued the one request and no other, and has logged exactly one entry,
    which holds the code and the failure reason. *)
Theorem check_permit_status_transport_failure `{UnicodeData}
    (env : Env) (code : str) (w : World) (exc : RequestException) :
  transport_failure (net env (permit_request code)) exc →
  let r := check_permit_status env code w in
  r.1 = ERROR_RESULT
  ∧ sent r.2 = sent w ++ [permit_request code]
  ∧ (∃ entry, log r.2 = log w ++ [entry] ∧ level entry = ERROR
              ∧ Substr code (message entry)
              ∧ Substr (exc_str exc) (message entry))
  ∧ chat r.2 = chat w.
Proof.
  intros Hfail r. unfold r.
  rewrite check_permit_status_eq, (try_body_failure _ _ Hfail).
  cbn [fst snd sent log chat].
  split_and!; [done | done | | done].
  eexists. split_and!; [reflexivity | done | |]; cbn [message].
  - apply Substr_intro.
  - exists (lit "Request failed for " ++ code ++ lit ": "), [].
    by rewrite app_nil_r, <- !app_assoc.
Qed.

Lemma check_permit_status_transport_failure_witness :
  let resp := {| status_code := 503; reason := lit "Service Unavailable";
                 resp_url := BASE_URL; text := lit "la consegna" |} in
  let r := @check_permit_status latin_tables (env_2026 (Returned resp))
             (lit "26123456") empty_world in
  r.1 = ERROR_RESULT ∧ length (sent r.2) = 1%nat ∧ length (log r.2) = 1%nat.
Proof.
  intros resp r.
  destruct (@check_permit_status_transport_failure latin_tables
              (env_2026 (Returned resp)) (lit "26123456") empty_world
              (HTTPError (lit "503 Server Error: Service Unavailable for url: "
                          ++ BASE_URL)))
    as (Hv & Hs & (entry & Hl & _) & _).
  - apply failure_status; [simpl; lia | reflexivity].
  - fold r in Hv, Hs, Hl. rewrite Hs, Hl. done.
Defined.

(** C6 as stated fails: a status that is not 2xx and not 4xx or 5xx (here
    304) is no error for [raise_for_status]; the body is classified and
    nothing is logged. *)
Lemma status_304_is_classified :
  let resp := {| status_code := 304; reason := lit "Not Modified";
                 resp_url := BASE_URL; text := [] |} in
  let r := @check_permit_status latin_tables (env_2026 (Returned resp))
             (lit "26123456") empty_world in
  ¬ (200 ≤ status_code resp < 300)
  ∧ r.1 = UNKNOWN_RESULT ∧ r.1 ≠ ERROR_RESULT ∧ log r.2 = [].
Proof.
  intros resp r. split_and!.
  - simpl. lia.
  - reflexivity.
  - change (r.1) with UNKNOWN_RESULT. intros Heq.
    apply (f_equal (λ d : dict, d !! lit "status")) in Heq.
    vm_compute in Heq. discriminate Heq.
  - reflexivity.
Qed.

(** ** [build_result_message] *)

Lemma STATUS_COLORS_known :
  STATUS_COLORS !! lit "ready" = Some GREEN
  ∧ STATUS_COLORS !! lit "processing" = Some YELLOW
  ∧ STATUS_COLORS !! lit "unknown" = Some RED
  ∧ STATUS_COLORS !! lit "error" = Some WARNING.
Proof. by vm_compute. Qed.

Lemma STATUS_COLORS_other (status : str) :
  status ∉ KNOWN_STATUSES → STATUS_COLORS !! status = None.
Proof.
  intros Hn. unfold STATUS_COLORS.
  rewrite !lookup_insert_ne, lookup_singleton_ne; [done|..];
    intros <-; apply Hn; unfold KNOWN_STATUSES; set_solver.
Qed.

(** With the four keys present, the block is the fixed layout. *)
Lemma build_result_message_some (code : str) (v : dict)
    (status title description emoji : str) :
  v !! lit "status" = Some status → v !! lit "title" = Some title →
  v !! lit "description" = Some description → v !! lit "emoji" = Some emoji →
  build_result_message code v =
  Some ((str_mul (lit "=") 28 ++ nl ++ emoji ++ lit "  <b>" ++ title
         ++ lit "</b>" ++ nl ++ str_mul (lit "=") 28 ++ nl ++ nl)
        ++ permit_code_line code
        ++ (default QUESTION (STATUS_COLORS !! status) ++ lit "  <b>Status:</b>  "
            ++ title ++ nl)
        ++ nl ++ description ++ nl ++ nl ++ str_mul [0x2500] 28).
Proof.
  intros Hs Ht Hd He. unfold build_result_message, permit_code_line.
  rewrite Hs, He, Ht, Hd. cbn [mbind option_bind].
  f_equal. by rewrite <- !app_assoc.
Qed.

Lemma build_result_message_inv (code : str) (v : dict) (block : str) :
  build_result_message code v = Some block →
  ∃ status title description emoji,
    v !! lit "status" = Some status ∧ v !! lit "title" = Some title
    ∧ v !! lit "description" = Some description ∧ v !! lit "emoji" = Some emoji.
Proof.
  unfold build_result_message. intros Hb.
  destruct (v !! lit "status") as [st|]; [|done].
  destruct (v !! lit "emoji") as [em|]; [|done].
  destruct (v !! lit "title") as [ti|]; [|done].
  destruct (v !! lit "description") as [de|]; [|done].
  by exists st, ti, de, em.
Qed.

Lemma build_result_message_permit_line (code : str) (v : dict) (block : str) :
  build_result_message code v = Some block → Substr (permit_code_line code) block.
Proof.
  intros Hb.
  destruct (build_result_message_inv _ _ _ Hb) as (st & ti & de & em & Hs & Ht & Hd & He).
  pose proof (build_result_message_some code v st ti de em Hs Ht Hd He) as Hb'.
  rewrite Hb in Hb'. apply (inj Some) in Hb'. rewrite Hb'. apply Substr_intro.
Qed.

Lemma VERDICTS_keys (v : dict) :
  v ∈ VERDICTS →
  ∃ status title description emoji,
    v !! lit "status" = Some status ∧ v !! lit "title" = Some title
    ∧ v !! lit "description" = Some description ∧ v !! lit "emoji" = Some emoji.
Proof.
  unfold VERDICTS. rewrite !elem_of_cons, elem_of_nil.
  intros [-> | [-> | [-> | [-> | []]]]];
    do 4 eexists; split_and!; reflexivity.
Qed.

Lemma build_result_message_verdict (code : str) (v : dict) :
  v ∈ VERDICTS → is_Some (build_result_message code v).
Proof.
  intros Hv. destruct (VERDICTS_keys v Hv) as (st & ti & de & em & Hs & Ht & Hd & He).
  rewrite (build_result_message_some code v st ti de em) by done. by eexists.
Qed.

(** C10. A verdict with any status string is formatted: the look-up of the
    indicator falls back to the question mark for a status outside the four
    known ones, and gives the mapped symbol for each of the four. *)
Theorem build_result_message_total (code : str) (v : dict)
    (status title description emoji : str) :
  v !! lit "status" = Some status → v !! lit "title" = Some title →
  v !! lit "description" = Some description → v !! lit "emoji" = Some emoji →
  ∃ block dot,
    build_result_message code v = Some block
    ∧ Substr (status_line dot title) block
    ∧ (status = lit "ready" → dot = [0x1f7e2])
    ∧ (status = lit "processing" → dot = [0x1f7e1])
    ∧ (status = lit "unknown" → dot = [0x1f534])
    ∧ (status = lit "error" → dot = [0x26a0; 0xfe0f])
    ∧ (status ∉ [lit "ready"; lit "processing"; lit "unknown"; lit "error"] →
       dot = [0x2753]).
Proof.
  intros Hs Ht Hd He.
  destruct STATUS_COLORS_known as (Hr & Hp & Hu & Hx).
  eexists _, (default QUESTION (STATUS_COLORS !! status)).
  split; [by apply (build_result_message_some code v status title description emoji)|].
  split.
  - unfold status_line, permit_code_line.
    exists ((str_mul (lit "=") 28 ++ nl ++ emoji ++ lit "  <b>" ++ title
             ++ lit "</b>" ++ nl ++ str_mul (lit "=") 28 ++ nl)
            ++ nl ++ [0x1f4c4] ++ lit "  <b>Permit Code:</b>  <code>" ++ code
            ++ lit "</code>"),
           (nl ++ description ++ nl ++ nl ++ str_mul [0x2500] 28).
    by rewrite <- !app_assoc.
  - split_and!.
    + intros ->. by rewrite Hr.
    + intros ->. by rewrite Hp.
    + intros ->. by rewrite Hu.
    + intros ->. by rewrite Hx.
    + intros Hn. by rewrite STATUS_COLORS_other.
Qed.

Lemma build_result_message_total_witness :
  ∃ block dot,
    build_result_message (lit "26BO123456")
      (<[lit "status" := lit "archived"]> READY_RESULT) = Some block
    ∧ Substr (status_line dot (lit "Ready for Pickup!")) block
    ∧ dot = [0x2753].
Proof.
  assert (lit "archived" ∉ KNOWN_STATUSES) as Hother.
  { apply (bool_decide_unpack _). by vm_compute. }
  destruct (build_result_message_total (lit "26BO123456")
              (<[lit "status" := lit "archived"]> READY_RESULT)
              (lit "archived") (lit "Ready for Pickup!")
              (lit "Your permit is <b>ready</b>!" ++ nl
               ++ lit "You can now book an appointment to pick it up" ++ nl
               ++ lit "at your local Questura office.")
              [0x2705])
    as (block & dot & Hb & Hsub & _ & _ & _ & _ & Hq); [by vm_compute..|].
  exists block, dot. split_and!; [done | done | by apply Hq].
Defined.

(** C8. The block is a function of its arguments alone, and of the verdict
    only through the four keys it reads: equal codes and verdicts that agree
    on those keys give the same block (or the same failure).  The formatter
    takes no world and returns none. *)
Theorem build_result_message_deterministic (code code' : str) (v v' : dict) :
  code = code' →
  (∀ k, k ∈ [lit "status"; lit "emoji"; lit "title"; lit "description"] →
        v !! k = v' !! k) →
  build_result_message code v = build_result_message code' v'.
Proof.
  intros -> Hk. unfold build_result_message.
  rewrite <- !Hk by set_solver. done.
Qed.

Lemma build_result_message_deterministic_witness :
  build_result_message (lit "26123456") READY_RESULT
  = build_result_message (lit "26123456")
      (<[lit "checked_at" := lit "2026"]> READY_RESULT).
Proof.
  assert (lit "checked_at"
          ∉ [lit "status"; lit "emoji"; lit "title"; lit "description"]) as Hnew.
  { apply (bool_decide_unpack _). by vm_compute. }
  apply build_result_message_deterministic; [reflexivity|].
  intros k Hk. rewrite lookup_insert_ne; [done|]. by intros <-.
Defined.

(** ** [handle_message] *)

Lemma edit_last {A} (l : list A) (x y : A) : <[length l := y]> (l ++ [x]) = l ++ [y].
Proof. by rewrite insert_app_r_alt, Nat.sub_diag by lia. Qed.

Section RouterFacts.
Context `{UnicodeData}.

(** The accepting path of [handle_message]: one request for the
    normalized code, and the placeholder replaced by the block built for
    that same code. *)
Lemma handle_message_accept (env : Env) (text : str) (w : World) :
  is_permit_code text = true →
  let code := normalize_permit_code (now_year env) (strip text) in
  let r := check_permit_status env code (reply_text CHECKING None w).2 in
  ∃ block,
    build_result_message code r.1 = Some block
    ∧ handle_message env text w
      = (Some tt, {| sent := sent w ++ [permit_request code];
                     log := log r.2;
                     chat := chat w ++ [result_message block] |}).
Proof.
  intros Hcode code r.
  destruct (build_result_message_verdict code r.1) as [block Hb];
    [apply check_permit_status_verdict|].
  exists block. split; [done|].
  unfold handle_message. rewrite is_permit_code_strip, Hcode.
  cbn [negb]. unfold bind at 1.
  change (reply_text CHECKING None w)
    with (length (chat w), (reply_text CHECKING None w).2).
  unfold bind at 1. fold code. fold r.
  destruct (check_permit_status_world env code (reply_text CHECKING None w).2)
    as [Hsent Hchat].
  fold r in Hsent, Hchat. destruct r as [v w2]. cbn [fst snd] in *.
  rewrite Hb. unfold bind, edit_text, ret. rewrite Hsent, Hchat.
  cbn [reply_text snd sent log chat]. unfold result_message.
  by rewrite edit_last.
Qed.
End RouterFacts.

(** C7. A free text that fails [is_permit_code] gets the guidance message
    and nothing else happens: no request is issued, nothing is logged. *)
Theorem handle_message_rejects `{UnicodeData} (env : Env) (text : str) (w : World) :
  is_permit_code text = false →
  handle_message env text w
  = (Some tt, {| sent := sent w; log := log w;
                 chat := chat w ++ [rejection_message] |}).
Proof.
  intros Hcode. unfold handle_message.
  by rewrite is_permit_code_strip, Hcode.
Qed.

Lemma handle_message_rejects_witness :
  @handle_message latin_tables (env_2026 (Raised (Timeout []))) (lit "hi") empty_world
  = (Some tt, {| sent := []; log := []; chat := [rejection_message] |}).
Proof.
  apply (@handle_message_rejects latin_tables (env_2026 (Raised (Timeout [])))
           (lit "hi") empty_world).
  reflexivity.
Defined.

(** C2 (as amended). In the scenario (input ["123456"], year 2026, a body
    that holds ["la consegna"]) the block left in the chat has the green
    indicator and, in its "Permit Code" line, the normalized code
    ["26123456"], not the raw input.  In general the formatter echoes the
    code it is given verbatim, and [handle_message] gives it the normalized
    code. *)
Theorem handle_message_shows_normalized_code `{UnicodeData}
    (env : Env) (w : World) (resp : Response) :
  now_year env = 2026 →
  net env (permit_request (lit "26123456")) = Returned resp →
  raise_for_status resp = None →
  Substr (lit "la consegna") (str_lower (text resp)) →
  (∃ block,
     chat (handle_message env (lit "123456") w).2 = chat w ++ [result_message block]
     ∧ Substr (status_line [0x1f7e2] (lit "Ready for Pickup!")) block
     ∧ Substr (permit_code_line (lit "26123456")) block
     ∧ ¬ Substr (permit_code_line (lit "123456")) block)
  ∧ (∀ code v block,
       build_result_message code v = Some block →
       Substr (permit_code_line code) block)
  ∧ (∀ env' text w',
       is_permit_code text = true →
       ∃ v block,
         v ∈ VERDICTS
         ∧ build_result_message
             (normalize_permit_code (now_year env') (strip text)) v = Some block
         ∧ chat (handle_message env' text w').2 = chat w' ++ [result_message block]).
Proof.
  intros Hyear Hnet Hok Hla. split_and!.
  - destruct (handle_message_accept env (lit "123456") w eq_refl)
      as (block & Hb & Hh).
    rewrite Hyear in Hb, Hh.
    change (normalize_permit_code 2026 (strip (lit "123456")))
      with (lit "26123456") in Hb, Hh.
    rewrite check_permit_status_eq, Hnet, try_body_success in Hb by done.
    apply contains_spec in Hla. rewrite Hla in Hb. cbn [fst] in Hb.
    exists block. rewrite Hh. split; [done|].
    pose (ready_block := default [] (build_result_message (lit "26123456")
                                         READY_RESULT)).
    assert (Hblock : build_result_message (lit "26123456") READY_RESULT
                     = Some ready_block) by by vm_compute.
    rewrite Hb in Hblock. apply (inj Some) in Hblock. rewrite Hblock.
    split_and!.
    + apply contains_spec. by vm_compute.
    + apply contains_spec. by vm_compute.
    + apply contains_false. by vm_compute.
  - apply build_result_message_permit_line.
  - intros env' text w' Hcode.
    destruct (handle_message_accept env' text w' Hcode) as (block & Hb & Hh).
    eexists _, block. split_and!; [|exact Hb|by rewrite Hh].
    apply check_permit_status_verdict.
Qed.

Lemma handle_message_shows_normalized_code_witness :
  let body := lit "Il documento e' pronto per la consegna" in
  ∃ block,
    chat (@handle_message latin_tables (env_2026 (Returned (ok_response body)))
            (lit "123456") empty_world).2 = [result_message block]
    ∧ Substr (status_line [0x1f7e2] (lit "Ready for Pickup!")) block
    ∧ Substr (permit_code_line (lit "26123456")) block
    ∧ ¬ Substr (permit_code_line (lit "123456")) block.
Proof.
  intros body.
  refine (proj1 (@handle_message_shows_normalized_code latin_tables
                   (env_2026 (Returned (ok_response body))) empty_world
                   (ok_response body) eq_refl eq_refl eq_refl _)).
  apply contains_spec. by vm_compute.
Defined.

(** C2 as stated fails: for the raw input ["123456"] the "Permit Code" line
    of the block holds ["26123456"], and the line with the raw code does
    not occur in the block. *)
Lemma permit_code_line_is_normalized :
  let body := lit "Il documento e' pronto per la consegna" in
  let w := (@handle_message latin_tables (env_2026 (Returned (ok_response body)))
              (lit "123456") empty_world).2 in
  ∃ block,
    chat w = [result_message block]
    ∧ contains (status_line [0x1f7e2] (lit "Ready for Pickup!")) block = true
    ∧ contains (permit_code_line (lit "26123456")) block = true
    ∧ contains (permit_code_line (lit "123456")) block = false.
Proof.
  intros body w.
  exists (default [] (build_result_message (lit "26123456") READY_RESULT)).
  by vm_compute.
Qed.

(** * Further properties of the code *)

(** ** Accepted codes and their normal form *)

Lemma is_permit_code_true (text : str) :
  is_permit_code text = true ↔
  (6 ≤ length (strip text) ≤ 20)%nat ∧ Forall (λ c, is_alnum c = true) (strip text).
Proof.
  unfold is_permit_code, re_alnum_6_20.
  apply re_match_rep_trimmed, strip_trimmed.
Qed.

Lemma is_alnum_lt (s : str) :
  Forall (λ c, is_alnum c = true) s → Forall (λ c, c < 128) s.
Proof.
  intros Hs. eapply Forall_impl; [exact Hs|].
  intros c. rewrite is_alnum_iff. lia.
Qed.

Lemma ascii_toupper_upper_or_digit (c : N) :
  is_alnum c = true → 65 ≤ ascii_toupper c ≤ 90 ∨ 48 ≤ ascii_toupper c ≤ 57.
Proof.
  rewrite is_alnum_iff. unfold ascii_toupper, is_ascii_lower. cmp_cases.
Qed.

Section AcceptedCodes.
Context `{UnicodeData}.

(** On letters and digits, the normaliser only looks at the upper-cased
    string. *)
Lemma normalize_alnum (year : N) (s : str) :
  Forall (λ c, is_alnum c = true) s →
  normalize_permit_code year s =
  let u := map ascii_toupper s in
  if re_six_digits u then year_prefix year ++ u else u.
Proof.
  intros Hs. unfold normalize_permit_code.
  rewrite (strip_id s) by by apply Forall_alnum_trimmed.
  by rewrite upper_ascii by by apply is_alnum_lt.
Qed.

Lemma normalize_strip (year : N) (text : str) :
  normalize_permit_code year (strip text) = normalize_permit_code year text.
Proof. unfold normalize_permit_code. by rewrite strip_idem. Qed.

Lemma re_six_digits_alnum (u : str) :
  Forall (λ c, is_alnum c = true) u →
  re_six_digits u = true ↔
  length u = 6%nat ∧ Forall (λ c, is_ascii_digit c = true) u.
Proof.
  intros Hu. rewrite re_six_digits_trimmed by by apply Forall_alnum_trimmed.
  apply and_iff_compat_l. pose proof (is_alnum_lt u Hu) as H128.
  rewrite !Forall_forall in *. split; intros Hd c Hc; specialize (Hd c Hc).
  - by rewrite is_decimal_ascii in Hd by by apply H128.
  - by rewrite is_decimal_ascii by by apply H128.
Qed.
End AcceptedCodes.

(** X1. The code [handle_message] sends for an accepted text is made of
    upper-case ASCII letters and digits only, is 6 to 20 characters long, is
    never a bare six-digit number, and is as long as the trimmed text unless
    that was six digits, in which case it has eight characters. *)
Theorem normalize_accepted_shape `{UnicodeData} (year : N) (text : str) :
  is_permit_code text = true →
  let code := normalize_permit_code year (strip text) in
  Forall (λ c, 65 ≤ c ≤ 90 ∨ 48 ≤ c ≤ 57) code
  ∧ (6 ≤ length code ≤ 20)%nat
  ∧ ¬ (length code = 6%nat ∧ Forall (λ c, 48 ≤ c ≤ 57) code)
  ∧ (length code = length (strip text)
     ∨ (length (strip text) = 6%nat ∧ length code = 8%nat)).
Proof.
  intros Hcode code. apply is_permit_code_true in Hcode as [Hlen Hal].
  unfold code. rewrite normalize_alnum by done. cbv zeta.
  set (u := map ascii_toupper (strip text)).
  assert (Hu : Forall (λ c, is_alnum c = true) u).
  { apply List.Forall_map. eapply Forall_impl; [exact Hal|].
    apply ascii_toupper_alnum. }
  assert (Hshape : Forall (λ c, 65 ≤ c ≤ 90 ∨ 48 ≤ c ≤ 57) u).
  { apply List.Forall_map. eapply Forall_impl; [exact Hal|].
    apply ascii_toupper_upper_or_digit. }
  assert (Hlu : length u = length (strip text)) by apply length_map.
  destruct (re_six_digits u) eqn:Hre.
  - apply re_six_digits_alnum in Hre as [Hl6 Hd]; [|done].
    rewrite length_app, year_prefix_length, Hl6. split_and!.
    + apply Forall_app. split.
      * eapply Forall_impl; [apply year_prefix_ascii_digits|].
        intros c Hc. apply is_ascii_digit_iff in Hc. lia.
      * done.
    + simpl. lia.
    + simpl. lia.
    + intros [Hl _]. simpl in Hl. lia.
    + right. split; [lia | done].
  - split_and!; [done | lia | lia | | by left].
    intros [Hl6 Hd]. apply not_true_iff_false in Hre. apply Hre.
    apply re_six_digits_alnum; [done|]. split; [done|].
    eapply Forall_impl; [exact Hd|]. intros c Hc. cbv beta in Hc.
    apply is_ascii_digit_iff. lia.
Qed.

Lemma normalize_accepted_shape_witness :
  let code := @normalize_permit_code latin_tables 2026 (strip (lit " 26bo123456 ")) in
  Forall (λ c, 65 ≤ c ≤ 90 ∨ 48 ≤ c ≤ 57) code
  ∧ (6 ≤ length code ≤ 20)%nat
  ∧ ¬ (length code = 6%nat ∧ Forall (λ c, 48 ≤ c ≤ 57) code)
  ∧ (length code = length (strip (lit " 26bo123456 "))
     ∨ (length (strip (lit " 26bo123456 ")) = 6%nat ∧ length code = 8%nat)).
Proof.
  apply (@normalize_accepted_shape latin_tables 2026 (lit " 26bo123456 ")).
  reflexivity.
Defined.

(** X2. Case does not matter: two strings of ASCII letters and digits that
    agree up to case are both accepted or both rejected, and normalize to
    the same code. *)
Theorem normalize_case_insensitive `{UnicodeData} (year : N) (s t : str) :
  Forall (λ c, is_alnum c = true) s →
  Forall (λ c, is_alnum c = true) t →
  map ascii_toupper s = map ascii_toupper t →
  is_permit_code s = is_permit_code t
  ∧ normalize_permit_code year s = normalize_permit_code year t.
Proof.
  intros Hs Ht Heq. split.
  - unfold is_permit_code, re_alnum_6_20.
    rewrite !strip_id by by apply Forall_alnum_trimmed.
    assert (Hlen : length s = length t).
    { by rewrite <- (length_map ascii_toupper s), Heq, length_map. }
    apply eq_true_iff_eq.
    rewrite !re_match_rep_trimmed by by apply Forall_alnum_trimmed.
    rewrite Hlen. split; intros [Hl _]; by split.
  - rewrite !normalize_alnum by done. by rewrite Heq.
Qed.

Lemma normalize_case_insensitive_witness :
  is_permit_code (lit "26bo123456") = is_permit_code (lit "26Bo123456")
  ∧ @normalize_permit_code latin_tables 2026 (lit "26bo123456")
    = @normalize_permit_code latin_tables 2026 (lit "26Bo123456").
Proof.
  apply (@normalize_case_insensitive latin_tables 2026);
    [apply (bool_decide_unpack _); by vm_compute..|reflexivity].
Defined.

(** ** White space around the text *)

Lemma lstrip_spaces (ws : str) : Forall space ws → lstrip ws = [].
Proof. induction 1 as [|c ws Hc _ IH]; [done|]. simpl. by rewrite Hc. Qed.

Lemma lstrip_app (s t : str) :
  lstrip (s ++ t) = match lstrip s with [] => lstrip t | _ => lstrip s ++ t end.
Proof.
  induction s as [|c s IH]; [done|]. simpl.
  destruct (isspace c); [exact IH | done].
Qed.

Lemma rstrip_app_spaces (s ws : str) : Forall space ws → rstrip (s ++ ws) = rstrip s.
Proof.
  intros Hws. unfold rstrip. rewrite rev_app_distr, lstrip_app.
  rewrite lstrip_spaces; [done|]. by apply Forall_rev.
Qed.

Lemma strip_padding (ws1 ws2 s : str) :
  Forall space ws1 → Forall space ws2 → strip (ws1 ++ s ++ ws2) = strip s.
Proof.
  intros H1 H2. unfold strip.
  rewrite lstrip_app, (lstrip_spaces ws1 H1), lstrip_app.
  destruct (lstrip s) as [|c k] eqn:Hs.
  - by rewrite (lstrip_spaces ws2 H2).
  - by apply rstrip_app_spaces.
Qed.

(** X3. White space around a text changes nothing: the padded text is
    accepted or rejected like the text itself, normalizes to the same code,
    and [handle_message] does the same with it. *)
Theorem whitespace_padding_ignored `{UnicodeData}
    (env : Env) (ws1 ws2 s : str) (w : World) :
  Forall space ws1 → Forall space ws2 →
  is_permit_code (ws1 ++ s ++ ws2) = is_permit_code s
  ∧ normalize_permit_code (now_year env) (ws1 ++ s ++ ws2)
    = normalize_permit_code (now_year env) s
  ∧ handle_message env (ws1 ++ s ++ ws2) w = handle_message env s w.
Proof.
  intros H1 H2. pose proof (strip_padding ws1 ws2 s H1 H2) as Hstrip.
  unfold handle_message, is_permit_code, normalize_permit_code.
  by rewrite Hstrip.
Qed.

Lemma whitespace_padding_ignored_witness :
  let env := env_2026 (Raised (Timeout [])) in
  let padded := [0xa0; 32] ++ lit "123456" ++ [10; 0x3000] in
  is_permit_code padded = is_permit_code (lit "123456")
  ∧ @normalize_permit_code latin_tables 2026 padded
    = @normalize_permit_code latin_tables 2026 (lit "123456")
  ∧ @handle_message latin_tables env padded empty_world
    = @handle_message latin_tables env (lit "123456") empty_world.
Proof.
  intros env padded.
  apply (@whitespace_padding_ignored latin_tables env [0xa0; 32] [10; 0x3000]
           (lit "123456") empty_world);
    apply (bool_decide_unpack _); by vm_compute.
Defined.

(** ** The year prefix *)

(** X4. The year prefix is always two ASCII digits that read back as
    [year % 100], so it repeats every hundred years. *)
Theorem year_prefix_round_trip (year : N) :
  (∃ d1 d2, year_prefix year = [48 + d1; 48 + d2]
            ∧ d1 < 10 ∧ d2 < 10 ∧ 10 * d1 + d2 = year mod 100)
  ∧ year_prefix (year + 100) = year_prefix year.
Proof.
  split.
  - exists ((year mod 100) / 10), ((year mod 100) mod 10).
    pose proof (N.mod_upper_bound year 100 ltac:(lia)) as Hlt.
    split_and!.
    + apply year_prefix_digits.
    + by apply N.Div0.div_lt_upper_bound.
    + by apply N.mod_upper_bound.
    + symmetry. apply N.Div0.div_mod.
  - unfold year_prefix. f_equal. f_equal.
    rewrite <- (N.mul_1_l 100) at 1. apply N.Div0.mod_add.
Qed.

(** ** The formatter *)

Lemma build_result_message_status_line (code : str) (v : dict)
    (status title description emoji : str) (block : str) :
  v !! lit "status" = Some status → v !! lit "title" = Some title →
  v !! lit "description" = Some description → v !! lit "emoji" = Some emoji →
  build_result_message code v = Some block →
  Substr (status_line (default QUESTION (STATUS_COLORS !! status)) title) block.
Proof.
  intros Hs Ht Hd He Hb.
  rewrite (build_result_message_some code v status title description emoji)
    in Hb by done.
  apply (inj Some) in Hb. rewrite <- Hb. unfold status_line, permit_code_line.
  exists ((str_mul (lit "=") 28 ++ nl ++ emoji ++ lit "  <b>" ++ title
           ++ lit "</b>" ++ nl ++ str_mul (lit "=") 28 ++ nl ++ nl)
          ++ [0x1f4c4] ++ lit "  <b>Permit Code:</b>  <code>" ++ code
          ++ lit "</code>"),
         (nl ++ description ++ nl ++ nl ++ str_mul [0x2500] 28).
  by rewrite <- !app_assoc.
Qed.

(** X5. The formatter fails exactly on a missing key: it returns a block
    when the verdict has the keys [status], [emoji], [title] and
    [description], and raises (no block) when any of them is absent. *)
Theorem build_result_message_is_Some_iff (code : str) (v : dict) :
  (is_Some (build_result_message code v) ↔
     is_Some (v !! lit "status") ∧ is_Some (v !! lit "emoji")
     ∧ is_Some (v !! lit "title") ∧ is_Some (v !! lit "description"))
  ∧ (build_result_message code v = None ↔
     v !! lit "status" = None ∨ v !! lit "emoji" = None
     ∨ v !! lit "title" = None ∨ v !! lit "description" = None).
Proof.
  assert (Hsome : is_Some (build_result_message code v) ↔
     is_Some (v !! lit "status") ∧ is_Some (v !! lit "emoji")
     ∧ is_Some (v !! lit "title") ∧ is_Some (v !! lit "description")).
  { split.
    - intros [block Hb].
      destruct (build_result_message_inv _ _ _ Hb)
        as (st & ti & de & em & -> & -> & -> & ->).
      by split_and!.
    - intros ([st Hs] & [em He] & [ti Ht] & [de Hd]).
      rewrite (build_result_message_some code v st ti de em) by done.
      by eexists. }
  split; [exact Hsome|]. split.
  - intros Hn.
    destruct (v !! lit "status") as [st|] eqn:Hs; [|by left].
    destruct (v !! lit "emoji") as [em|] eqn:He; [|by right; left].
    destruct (v !! lit "title") as [ti|] eqn:Ht; [|by right; right; left].
    destruct (v !! lit "description") as [de|] eqn:Hd; [|by right; right; right].
    by rewrite (build_result_message_some code v st ti de em) in Hn.
  - intros Hor. apply eq_None_not_Some. intros Hsm.
    apply Hsome in Hsm as (H1 & H2 & H3 & H4).
    destruct Hor as [Hk | [Hk | [Hk | Hk]]]; rewrite Hk in *;
      by eapply is_Some_None.
Qed.

(** X6. A block shows which code it was built for: with the same verdict,
    two different codes never give the same block. *)
Theorem build_result_message_code_injective (code code' : str) (v : dict) :
  code ≠ code' →
  is_Some (build_result_message code v) →
  build_result_message code v ≠ build_result_message code' v.
Proof.
  intros Hne [block Hb] Heq. apply Hne.
  destruct (build_result_message_inv _ _ _ Hb)
    as (st & ti & de & em & Hs & Ht & Hd & He).
  rewrite !(build_result_message_some _ v st ti de em) in Heq by done.
  apply (inj Some) in Heq. apply app_inv_head in Heq.
  unfold permit_code_line in Heq. rewrite <- !app_assoc in Heq.
  apply app_inv_head in Heq. apply app_inv_head in Heq.
  revert Heq. generalize (lit "</code>" ++ nl ++
    (default QUESTION (STATUS_COLORS !! st) ++ lit "  <b>Status:</b>  " ++ ti ++ nl)
    ++ nl ++ de ++ nl ++ nl ++ str_mul [9472] 28).
  intros rest Heq. by apply app_inv_tail in Heq.
Qed.

Lemma build_result_message_code_injective_witness :
  build_result_message (lit "123456") READY_RESULT
  ≠ build_result_message (lit "26123456") READY_RESULT.
Proof.
  apply build_result_message_code_injective.
  - apply (bool_decide_unpack _). by vm_compute.
  - apply build_result_message_verdict. unfold VERDICTS. set_solver.
Defined.

(** ** The classifier *)

Lemma VERDICTS_status (v : dict) :
  v ∈ VERDICTS →
  ∃ status dot title description emoji,
    v !! lit "status" = Some status ∧ v !! lit "title" = Some title
    ∧ v !! lit "description" = Some description ∧ v !! lit "emoji" = Some emoji
    ∧ status ∈ KNOWN_STATUSES
    ∧ STATUS_COLORS !! status = Some dot
    ∧ dot ∈ [GREEN; YELLOW; RED; WARNING].
Proof.
  unfold VERDICTS. rewrite !elem_of_cons, elem_of_nil.
  intros [-> | [-> | [-> | [-> | []]]]].
  - exists (lit "ready"), GREEN. do 3 eexists.
    split_and!; try reflexivity; [unfold KNOWN_STATUSES|]; set_solver.
  - exists (lit "processing"), YELLOW. do 3 eexists.
    split_and!; try reflexivity; [unfold KNOWN_STATUSES|]; set_solver.
  - exists (lit "unknown"), RED. do 3 eexists.
    split_and!; try reflexivity; [unfold KNOWN_STATUSES|]; set_solver.
  - exists (lit "error"), WARNING. do 3 eexists.
    split_and!; try reflexivity; [unfold KNOWN_STATUSES|]; set_solver.
Qed.

(** X7. Classifier and formatter fit together: whatever the network does,
    the verdict of [check_permit_status] has a status that [STATUS_COLORS]
    maps, so the block built from it exists and shows one of the four
    indicators, never the fallback question mark. *)
Theorem verdict_always_has_indicator `{UnicodeData}
    (env : Env) (code code' : str) (w : World) :
  ∃ status dot title block,
    (check_permit_status env code w).1 !! lit "status" = Some status
    ∧ STATUS_COLORS !! status = Some dot
    ∧ dot ∈ [GREEN; YELLOW; RED; WARNING]
    ∧ dot ≠ QUESTION
    ∧ build_result_message code' (check_permit_status env code w).1 = Some block
    ∧ Substr (status_line dot title) block.
Proof.
  destruct (VERDICTS_status _ (check_permit_status_verdict env code w))
    as (st & dot & ti & de & em & Hs & Ht & Hd & He & _ & Hdot & Hin).
  destruct (build_result_message_verdict code' _
              (check_permit_status_verdict env code w)) as [block Hb].
  exists st, dot, ti, block. split_and!; [done | done | done | | done |].
  - intros ->. revert Hin. apply (bool_decide_unpack _). by vm_compute.
  - pose proof (build_result_message_status_line code' _ st ti de em block
                  Hs Ht Hd He Hb) as Hline.
    by rewrite Hdot in Hline.
Qed.

Lemma try_body_inr_iff `{UnicodeData} (outcome : Outcome) (exc : RequestException) :
  try_body outcome = inr exc ↔ transport_failure outcome exc.
Proof.
  split; [|apply try_body_failure].
  destruct outcome as [resp|e]; simpl.
  - destruct (raise_for_status resp) as [e|] eqn:Hr; [|done].
    intros [= ->]. apply failure_status; [|done].
    destruct (decide (400 ≤ status_code resp < 600)) as [|Hn]; [done|].
    apply raise_for_status_none in Hn. congruence.
  - intros [= ->]. constructor.
Qed.

Lemma VERDICTS_not_error (v : dict) :
  v ∈ [READY_RESULT; PROCESSING_RESULT; UNKNOWN_RESULT] → v ≠ ERROR_RESULT.
Proof.
  intros Hin ->. revert Hin. apply (bool_decide_unpack _). by vm_compute.
Qed.

(** X8. Every call of [check_permit_status] issues exactly one request,
    the one for its code, and leaves the chat alone.  It returns the error
    verdict exactly when the transport failed, and that is also exactly when
    it logs: one [ERROR] record on failure, none otherwise. *)
Theorem check_permit_status_effects `{UnicodeData}
    (env : Env) (code : str) (w : World) :
  let r := check_permit_status env code w in
  let failed := ∃ exc, transport_failure (net env (permit_request code)) exc in
  sent r.2 = sent w ++ [permit_request code]
  ∧ chat r.2 = chat w
  ∧ (r.1 = ERROR_RESULT ↔ failed)
  ∧ ((failed ∧ ∃ entry, log r.2 = log w ++ [entry] ∧ level entry = ERROR)
     ∨ (¬ failed ∧ log r.2 = log w)).
Proof.
  intros r failed. unfold r, failed.
  rewrite check_permit_status_eq.
  destruct (try_body (net env (permit_request code))) as [body|exc] eqn:Htry.
  - assert (Hnot : ¬ ∃ exc, transport_failure (net env (permit_request code)) exc).
    { intros [exc Hf]. apply try_body_inr_iff in Hf. congruence. }
    cbn [fst snd sent log chat]. split_and!; [done | done | | by right].
    split; [|done]. intros Herr. exfalso. revert Herr.
    apply VERDICTS_not_error. repeat destruct (contains _ body); set_solver.
  - assert (Hf : ∃ exc, transport_failure (net env (permit_request code)) exc).
    { exists exc. by apply try_body_inr_iff. }
    cbn [fst snd sent log chat]. split_and!; [done | done | done |].
    left. split; [done|]. by eexists.
Qed.

(** X9. The request for a code carries it in the [pratica] parameter and in
    the [Referer], which is the base URL followed by the same query; the
    [Referer] is added to the fixed headers without replacing any of them;
    and different codes give different requests. *)
Theorem permit_request_carries_code (code : str) :
  params (permit_request code) !! lit "pratica" = Some code
  ∧ headers (permit_request code) !! lit "Referer"
    = Some (url (permit_request code) ++ lit "?lang=italian&mime=&pratica="
            ++ code ++ lit "&invia=Invia")
  ∧ HEADERS !! lit "Referer" = None
  ∧ (∀ k, k ≠ lit "Referer" → headers (permit_request code) !! k = HEADERS !! k)
  ∧ (∀ code', permit_request code = permit_request code' → code = code').
Proof.
  assert (Hp : ∀ c, params (permit_request c) !! lit "pratica" = Some c).
  { intros c. cbn [permit_request params].
    rewrite lookup_insert_ne by (apply (bool_decide_unpack _); by vm_compute).
    rewrite lookup_insert_ne by (apply (bool_decide_unpack _); by vm_compute).
    by rewrite lookup_insert_eq. }
  split_and!.
  - apply Hp.
  - cbn [permit_request headers url]. by rewrite lookup_insert_eq.
  - by vm_compute.
  - intros k Hk. cbn [permit_request headers]. by rewrite lookup_insert_ne.
  - intros code' Heq. apply (f_equal (λ r, params r !! lit "pratica")) in Heq.
    rewrite !Hp in Heq. by injection Heq.
Qed.

(** ** The handler of free text *)

Lemma live_keyboards :
  live_keyboard main_menu_keyboard ∧ live_keyboard RESULT_KEYBOARD
  ∧ live_keyboard help_button_keyboard ∧ live_keyboard help_command_keyboard.
Proof.
  unfold live_keyboard, live_data.
  split_and!; apply (bool_decide_unpack _); by vm_compute.
Qed.

Lemma check_permit_status_log `{UnicodeData} (env : Env) (code : str) (w : World) :
  ∃ logs, log (check_permit_status env code w).2 = log w ++ logs
          ∧ (logs = [] ∨ ∃ entry, logs = [entry] ∧ level entry = ERROR).
Proof.
  rewrite check_permit_status_eq.
  destruct (try_body _) as [body|exc]; cbn [snd log].
  - exists []. split; [by rewrite app_nil_r | by left].
  - eexists. split; [reflexivity|]. right. by eexists.
Qed.

(** What [handle_message] returns and leaves behind, in both cases. *)
Lemma handle_message_cases `{UnicodeData} (env : Env) (text : str) (w : World) :
  ∃ m logs,
    handle_message env text w
    = (Some tt,
       {| sent := sent w ++
                  (if is_permit_code text
                   then [permit_request
                           (normalize_permit_code (now_year env) (strip text))]
                   else []);
          log := log w ++ logs;
          chat := chat w ++ [m] |})
    ∧ live_message m
    ∧ (logs = [] ∨ (is_permit_code text = true
                    ∧ ∃ entry, logs = [entry] ∧ level entry = ERROR)).
Proof.
  destruct (is_permit_code text) eqn:Hcode.
  - destruct (handle_message_accept env text w Hcode) as (block & _ & Hh).
    destruct (check_permit_status_log env
                (normalize_permit_code (now_year env) (strip text))
                (reply_text CHECKING None w).2) as (logs & Hlog & Hcases).
    exists (result_message block), logs. rewrite Hh, Hlog.
    split_and!; [done | apply live_keyboards |].
    destruct Hcases as [-> | Hentry]; [by left | by right].
  - exists rejection_message, []. split_and!; [|done | by left].
    unfold handle_message. rewrite is_permit_code_strip, Hcode.
    by rewrite !app_nil_r.
Qed.


(** ** The dispatch *)


Lemma set_chat_id (b : Bot) : set_chat b (chat (world b)) (answered b) = b.
Proof. by destruct b as [[] ?]. Qed.

Section DispatchFacts.
Context `{UnicodeData}.

Lemma process_update_command (env : Env) (name text : str) (b : Bot) :
  ∃ added,
    process_update env (CommandUpdate name text) b
    = (Some tt, set_chat b (chat (world b) ++ added) (answered b))
    ∧ ((name = lit "start"
        ∧ added = [screen (start_welcome (now_year env)) (Some main_menu_keyboard)])
       ∨ (name = lit "check"
          ∧ added = [screen (check_command_prompt (now_year env)) None])
       ∨ (name = lit "help"
          ∧ added = [screen help_command_text (Some help_command_keyboard)])
       ∨ ((name ∉ [lit "start"; lit "check"; lit "help"]) ∧ added = [])).
Proof.
  unfold process_update, HANDLERS. cbn [find check_update fst].
  destruct (decide (name = lit "start")) as [->|Hs].
  { eexists. split; [reflexivity|]. by left. }
  rewrite (bool_decide_eq_false_2 _ Hs).
  destruct (decide (name = lit "check")) as [->|Hc].
  { eexists. split; [reflexivity|]. by right; left. }
  rewrite (bool_decide_eq_false_2 _ Hc).
  destruct (decide (name = lit "help")) as [->|Hh].
  { eexists. split; [reflexivity|]. by right; right; left. }
  rewrite (bool_decide_eq_false_2 _ Hh).
  exists []. split.
  - unfold hret. by rewrite app_nil_r, set_chat_id.
  - right; right; right. split; [|done].
    rewrite !elem_of_cons, elem_of_nil. tauto.
Qed.

Lemma process_update_text (env : Env) (text : str) (b : Bot) :
  process_update env (TextUpdate text) b
  = ((handle_message env text (world b)).1,
     {| world := (handle_message env text (world b)).2; answered := answered b |}).
Proof.
  unfold process_update, HANDLERS. cbn [find check_update fst].
  unfold handle_message_update, lift. by destruct (handle_message env text (world b)).
Qed.

Lemma process_update_callback (env : Env) (query_id : nat) (data : str)
    (message_id : nat) (b : Bot) :
  (live_data data
   ∧ ∃ m, process_update env (CallbackUpdate query_id data message_id) b
          = (Some tt, set_chat b (<[message_id := m]> (chat (world b)))
                        (answered b ++ [query_id]))
          ∧ live_message m
          ∧ ((re_match_literal (lit "check") data = true
              ∧ m = screen (check_button_prompt (now_year env)) None)
             ∨ (re_match_literal (lit "check") data = false
                ∧ re_match_literal (lit "help") data = true
                ∧ m = screen help_button_text (Some help_button_keyboard))
             ∨ (re_match_literal (lit "check") data = false
                ∧ re_match_literal (lit "help") data = false
                ∧ m = screen (start_welcome (now_year env))
                        (Some main_menu_keyboard))))
  ∨ (¬ live_data data
     ∧ process_update env (CallbackUpdate query_id data message_id) b
       = (Some tt, b)).
Proof.
  unfold process_update, HANDLERS, live_data. cbn [find check_update fst].
  destruct live_keyboards as (Hmain & _ & Hhelp & _).
  destruct (re_match_literal (lit "check") data) eqn:Hc.
  { left. split; [by left|].
    exists (screen (check_button_prompt (now_year env)) None).
    split; [reflexivity|]. split; [done | by left]. }
  destruct (re_match_literal (lit "help") data) eqn:Hh.
  { left. split; [by right; left|].
    exists (screen help_button_text (Some help_button_keyboard)).
    split; [reflexivity|]. split; [exact Hhelp | by right; left]. }
  destruct (re_match_literal (lit "home") data) eqn:Ho.
  { left. split; [by right; right|].
    exists (screen (start_welcome (now_year env)) (Some main_menu_keyboard)).
    split; [reflexivity|]. split; [exact Hmain | by right; right]. }
  right. split; [|done]. by intros [? | [? | ?]].
Qed.

Lemma process_update_other (env : Env) (b : Bot) :
  process_update env OtherUpdate b = (Some tt, b).
Proof. done. Qed.
End DispatchFacts.


(** X12. Only an accepted free text reaches the network: the dispatch
    issues one request, for the normalized code, on a text message that
    [is_permit_code] accepts, and no request on any other update.  It never
    answers a callback query on a message or a command. *)
Theorem process_update_requests `{UnicodeData} (env : Env) (u : Update) (b : Bot) :
  sent (world (process_update env u b).2)
  = sent (world b) ++
    match u with
    | TextUpdate text =>
        if is_permit_code text
        then [permit_request (normalize_permit_code (now_year env) (strip text))]
        else []
    | _ => []
    end
  ∧ match u with
    | CallbackUpdate _ _ _ => True
    | _ => answered (process_update env u b).2 = answered b
    end.
Proof.
  destruct u as [name text | text | q data mid |].
  - destruct (process_update_command env name text b) as (added & -> & _).
    by rewrite app_nil_r.
  - rewrite process_update_text.
    by destruct (handle_message_cases env text (world b)) as (m & logs & -> & _).
  - destruct (process_update_callback env q data mid b)
      as [(_ & m & -> & _) | (_ & ->)]; by rewrite app_nil_r.
  - by rewrite app_nil_r.
Qed.

(** X13. No dead buttons: if every button in the chat is accepted by some
    callback handler of [main], this is still so after any update, since
    every keyboard the handlers attach only holds the data [check], [help]
    and [home]. *)
Theorem process_update_keeps_buttons_live `{UnicodeData}
    (env : Env) (u : Update) (b : Bot) :
  Forall live_message (chat (world b)) →
  Forall live_message (chat (world (process_update env u b).2)).
Proof.
  intros Hlive. destruct live_keyboards as (Hmain & _ & _ & Hhelp).
  destruct u as [name text | text | q data mid |].
  - destruct (process_update_command env name text b) as (added & -> & Hadded).
    cbn [snd set_chat world chat]. apply Forall_app. split; [done|].
    destruct Hadded as [[_ ->] | [[_ ->] | [[_ ->] | [_ ->]]]];
      repeat constructor; done.
  - rewrite process_update_text.
    destruct (handle_message_cases env text (world b)) as (m & logs & -> & Hm & _).
    cbn [snd world chat]. apply Forall_app. split; [done|]. by constructor.
  - destruct (process_update_callback env q data mid b)
      as [(_ & m & -> & Hm & _) | (_ & ->)]; [|done].
    cbn [snd set_chat world chat]. by apply Forall_insert.
  - done.
Qed.

Lemma process_update_keeps_buttons_live_witness :
  Forall live_message
    (chat (world (@process_update latin_tables (env_2026 (Raised (Timeout [])))
                    (CommandUpdate (lit "start") (lit "/start")) empty_bot).2)).
Proof.
  apply (@process_update_keeps_buttons_live latin_tables). constructor.
Defined.


(** X15. The welcome screen is the same however it is reached: the
    [start] command appends it to the chat, and the [home] button puts the
    very same message (text and menu) in place of the one that carried the
    button. *)
Theorem start_same_screen `{UnicodeData}
    (env : Env) (text : str) (query_id message_id : nat) (b : Bot) :
  (message_id < length (chat (world b)))%nat →
  let by_command := (process_update env (CommandUpdate (lit "start") text) b).2 in
  let by_button :=
    (process_update env (CallbackUpdate query_id (lit "home") message_id) b).2 in
  let welcome := screen (start_welcome (now_year env)) (Some main_menu_keyboard) in
  chat (world by_command) = chat (world b) ++ [welcome]
  ∧ chat (world by_button) = <[message_id := welcome]> (chat (world b))
  ∧ chat (world by_button) !! message_id = Some welcome
  ∧ length (chat (world by_button)) = length (chat (world b)).
Proof.
  intros Hlt by_command by_button welcome.
  assert (Hb : chat (world by_button) = <[message_id := welcome]> (chat (world b))).
  { unfold by_button.
    destruct (process_update_callback env query_id (lit "home") message_id b)
      as [(_ & m & -> & _ & Hm) | (Hdead & _)].
    - cbn [snd set_chat world chat].
      destruct Hm as [[Hc _] | [(_ & Hh & _) | (_ & _ & ->)]]; [| |done].
      + by vm_compute in Hc.
      + by vm_compute in Hh.
    - exfalso. apply Hdead. right; right. by vm_compute. }
  split_and!.
  - unfold by_command.
    destruct (process_update_command env (lit "start") text b)
      as (added & -> & Hadded).
    cbn [snd set_chat world chat].
    destruct Hadded as [[_ ->] | [[Hn _] | [[Hn _] | [Hn _]]]]; [done|..].
    + by vm_compute in Hn.
    + by vm_compute in Hn.
    + exfalso. apply Hn. rewrite !elem_of_cons. by left.
  - exact Hb.
  - rewrite Hb. by apply list_lookup_insert_eq.
  - rewrite Hb. apply length_insert.
Qed.

Lemma start_same_screen_witness :
  let b := (@process_update latin_tables (env_2026 (Raised (Timeout [])))
              (CommandUpdate (lit "help") (lit "/help")) empty_bot).2 in
  let welcome := screen (start_welcome 2026) (Some main_menu_keyboard) in
  chat (world (@process_update latin_tables (env_2026 (Raised (Timeout [])))
                 (CommandUpdate (lit "start") (lit "/start")) b).2)
  = chat (world b) ++ [welcome]
  ∧ chat (world (@process_update latin_tables (env_2026 (Raised (Timeout [])))
                   (CallbackUpdate 7 (lit "home") 0) b).2)
    = <[0%nat := welcome]> (chat (world b))
  ∧ chat (world (@process_update latin_tables (env_2026 (Raised (Timeout [])))
                   (CallbackUpdate 7 (lit "home") 0) b).2) !! 0%nat
    = Some welcome
  ∧ length (chat (world (@process_update latin_tables
                           (env_2026 (Raised (Timeout [])))
                           (CallbackUpdate 7 (lit "home") 0) b).2))
    = length (chat (world b)).
Proof.
  intros b welcome.
  apply (@start_same_screen latin_tables (env_2026 (Raised (Timeout [])))
           (lit "/start") 7 0 b).
  vm_compute. lia.
Defined.

(** X16. A message, a command or any other update never rewrites the chat:
    a free text and each of the commands [start], [check] and [help] append
    exactly one message, an unknown command and an update of another kind
    leave the chat as it is. *)
Theorem process_update_appends `{UnicodeData} (env : Env) (u : Update) (b : Bot) :
  let c := chat (world b) in
  let c' := chat (world (process_update env u b).2) in
  match u with
  | CommandUpdate name _ =>
      (name ∈ [lit "start"; lit "check"; lit "help"] ∧ ∃ m, c' = c ++ [m])
      ∨ ((name ∉ [lit "start"; lit "check"; lit "help"]) ∧ c' = c)
  | TextUpdate _ => ∃ m, c' = c ++ [m]
  | CallbackUpdate _ _ _ => length c' = length c
  | OtherUpdate => c' = c
  end.
Proof.
  intros c c'. unfold c, c'.
  destruct u as [name text | text | q data mid |].
  - destruct (process_update_command env name text b) as (added & -> & Hadded).
    cbn [snd set_chat world chat].
    destruct Hadded as [[-> ->] | [[-> ->] | [[-> ->] | [Hn ->]]]].
    + left. split; [rewrite !elem_of_cons; by left | by eexists].
    + left. split; [rewrite !elem_of_cons; by right; left | by eexists].
    + left. split; [rewrite !elem_of_cons; by right; right; left | by eexists].
    + right. split; [done | by rewrite app_nil_r].
  - rewrite process_update_text.
    destruct (handle_message_cases env text (world b)) as (m & logs & -> & _).
    by exists m.
  - destruct (process_update_callback env q data mid b)
      as [(_ & m & -> & _) | (_ & ->)]; [|done].
    cbn [snd set_chat world chat]. apply length_insert.
  - done.
Qed.

(** Where the screens show the year prefix and the full example code. *)
Lemma start_welcome_year (year : N) :
  Substr (lit "year (<code>" ++ year_prefix year ++ lit "</code>)")
         (start_welcome year).
Proof.
  exists ([0x1f1ee; 0x1f1f9] ++ lit "  <b>Permesso di Soggiorno Tracker</b>"
          ++ nl ++ str_mul [0x2501] 30 ++ nl ++ nl
          ++ lit "Welcome! I can check the status of your" ++ nl
          ++ lit "<b>Italian residence permit</b> (Permesso di Soggiorno)"
          ++ nl ++ lit "directly from the Polizia di Stato portal." ++ nl
          ++ nl ++ [0x1f4cc] ++ lit " <b>How it works:</b>" ++ nl
          ++ lit "  Just send me your permit code anytime!" ++ nl
          ++ lit "  (e.g. <code>26BO123456</code> or just <code>123456</code>)"
          ++ nl ++ nl ++ [0x1f4a1]
          ++ lit " <i>Tip: If you send only 6 digits, the current" ++ nl),
         (lit " is added automatically.</i>" ++ nl ++ nl
          ++ str_mul [0x2500] 30 ++ nl ++ [0x1f447]
          ++ lit "  <i>Choose an option or just type your code</i>").
  unfold start_welcome. by rewrite <- !app_assoc.
Qed.

Lemma check_button_prompt_year (year : N) :
  Substr (lit "prefix (<code>" ++ year_prefix year ++ lit "</code>)")
         (check_button_prompt year).
Proof.
  exists ([0x1f4dd] ++ lit "  <b>Enter Your Permit Code</b>" ++ nl
          ++ str_mul [0x2500] 28 ++ nl ++ nl
          ++ lit "Please type or paste your permit code." ++ nl ++ nl
          ++ [0x1f4cb] ++ lit "  <b>Accepted formats:</b>" ++ nl ++ lit "  "
          ++ [0x2022] ++ lit "  Full code:  <code>" ++ year_prefix year
          ++ lit "BO123456</code>  (10 chars)" ++ nl ++ lit "  " ++ [0x2022]
          ++ lit "  Short code: <code>123456</code>  (6 digits)" ++ nl ++ nl
          ++ [0x1f4a1] ++ lit " <i>If you send 6 digits, the current year"
          ++ nl),
         (lit " is added automatically.</i>").
  unfold check_button_prompt. by rewrite <- !app_assoc.
Qed.

Lemma check_button_prompt_example (year : N) :
  Substr (lit "<code>" ++ (year_prefix year ++ lit "BO123456") ++ lit "</code>")
         (check_button_prompt year).
Proof.
  exists ([0x1f4dd] ++ lit "  <b>Enter Your Permit Code</b>" ++ nl
          ++ str_mul [0x2500] 28 ++ nl ++ nl
          ++ lit "Please type or paste your permit code." ++ nl ++ nl
          ++ [0x1f4cb] ++ lit "  <b>Accepted formats:</b>" ++ nl ++ lit "  "
          ++ [0x2022] ++ lit "  Full code:  "),
         (lit "  (10 chars)" ++ nl ++ lit "  " ++ [0x2022]
          ++ lit "  Short code: <code>123456</code>  (6 digits)" ++ nl ++ nl
          ++ [0x1f4a1] ++ lit " <i>If you send 6 digits, the current year"
          ++ nl ++ lit "prefix (<code>" ++ year_prefix year
          ++ lit "</code>) is added automatically.</i>").
  unfold check_button_prompt. by rewrite <- !app_assoc.
Qed.

Lemma check_command_prompt_example (year : N) :
  Substr (lit "<code>" ++ (year_prefix year ++ lit "BO123456") ++ lit "</code>")
         (check_command_prompt year).
Proof.
  exists ([0x1f4dd] ++ lit "  <b>Enter Your Permit Code</b>" ++ nl
          ++ str_mul [0x2500] 28 ++ nl ++ nl
          ++ lit "Please type or paste your permit code." ++ nl ++ nl
          ++ [0x1f4cb] ++ lit "  <b>Accepted formats:</b>" ++ nl ++ lit "  "
          ++ [0x2022] ++ lit "  Full code:  "),
         (lit "  (10 chars)" ++ nl ++ lit "  " ++ [0x2022]
          ++ lit "  Short code: <code>123456</code>  (6 digits)" ++ nl).
  unfold check_command_prompt. by rewrite <- !app_assoc.
Qed.

Lemma year_prefix_alnum (year : N) :
  Forall (λ c, is_alnum c = true) (year_prefix year).
Proof.
  eapply Forall_impl; [apply year_prefix_ascii_digits|].
  intros c Hc. apply is_ascii_digit_iff in Hc. apply is_alnum_iff. lia.
Qed.

Lemma map_ascii_toupper_digits (s : str) :
  Forall (λ c, is_ascii_digit c = true) s → map ascii_toupper s = s.
Proof.
  induction 1 as [|c s Hc _ IH]; [done|].
  simpl. by rewrite ascii_toupper_digit, IH.
Qed.

(** X17. The screens and the normaliser agree on the year.  The prefix the
    welcome and the check prompt announce is the one
    [normalize_permit_code] puts before six digits; and the full example
    code of the prompts (that prefix followed by [BO123456]) is accepted by
    [is_permit_code], has ten characters and is left unchanged by the
    normaliser. *)
Theorem prompts_show_normalizer_prefix `{UnicodeData} (year : N) (six : str) :
  length six = 6%nat →
  Forall (λ c, 48 ≤ c ≤ 57) six →
  let full := year_prefix year ++ lit "BO123456" in
  normalize_permit_code year six = year_prefix year ++ six
  ∧ Substr (lit "year (<code>" ++ year_prefix year ++ lit "</code>)")
           (start_welcome year)
  ∧ Substr (lit "prefix (<code>" ++ year_prefix year ++ lit "</code>)")
           (check_button_prompt year)
  ∧ Substr (lit "<code>" ++ full ++ lit "</code>") (check_button_prompt year)
  ∧ Substr (lit "<code>" ++ full ++ lit "</code>") (check_command_prompt year)
  ∧ is_permit_code full = true
  ∧ length full = 10%nat
  ∧ normalize_permit_code year full = full.
Proof.
  intros Hlen Hsix full.
  assert (Hdig : Forall (λ c, is_ascii_digit c = true) six).
  { eapply Forall_impl; [exact Hsix|]. intros c Hc. by apply is_ascii_digit_iff. }
  assert (Hal : Forall (λ c, is_alnum c = true) six).
  { eapply Forall_impl; [exact Hsix|]. intros c Hc. cbv beta in Hc.
    apply is_alnum_iff. lia. }
  assert (Hfull : Forall (λ c, is_alnum c = true) full).
  { apply Forall_app. split; [apply year_prefix_alnum|].
    apply (bool_decide_unpack _). by vm_compute. }
  assert (Hlfull : length full = 10%nat).
  { unfold full. by rewrite length_app, year_prefix_length. }
  assert (Hup : map ascii_toupper full = full).
  { unfold full. rewrite map_app.
    by rewrite (map_ascii_toupper_digits _ (year_prefix_ascii_digits year)). }
  split_and!.
  - rewrite normalize_alnum by done. cbv zeta.
    rewrite (map_ascii_toupper_digits six Hdig).
    assert (Hre : re_six_digits six = true) by by apply re_six_digits_alnum.
    by rewrite Hre.
  - apply start_welcome_year.
  - apply check_button_prompt_year.
  - apply check_button_prompt_example.
  - apply check_command_prompt_example.
  - apply is_permit_code_true.
    rewrite (strip_id full) by by apply Forall_alnum_trimmed.
    split; [lia | done].
  - done.
  - rewrite normalize_alnum by done. cbv zeta. rewrite Hup.
    destruct (re_six_digits full) eqn:Hre; [|done].
    apply re_six_digits_alnum in Hre as [Hl _]; [lia | done].
Qed.

Lemma prompts_show_normalizer_prefix_witness :
  @normalize_permit_code latin_tables 2026 (lit "123456") = lit "26123456"
  ∧ Substr (lit "year (<code>26</code>)") (start_welcome 2026)
  ∧ Substr (lit "prefix (<code>26</code>)") (check_button_prompt 2026)
  ∧ Substr (lit "<code>26BO123456</code>") (check_button_prompt 2026)
  ∧ Substr (lit "<code>26BO123456</code>") (check_command_prompt 2026)
  ∧ is_permit_code (lit "26BO123456") = true
  ∧ length (lit "26BO123456") = 10%nat
  ∧ @normalize_permit_code latin_tables 2026 (lit "26BO123456") = lit "26BO123456".
Proof.
  apply (@prompts_show_normalizer_prefix latin_tables 2026 (lit "123456"));
    [reflexivity | apply (bool_decide_unpack _); by vm_compute].
Defined.
